(** * heart-attack-prediction: the cleaning steps and the evaluation harness
      of [model.py], embedded in Rocq.

    Numbers.  The script works on float64 columns.  Cells are modelled as
    exact rationals ([Qc], canonical fractions, so that two equal columns
    are equal terms); a float scalar that may be NaN is an [npfloat].
    A dataset has no missing cell (the script drops incomplete rows before
    any of the functions below runs), so a column is a [list Qc].

    Objects.  A pandas DataFrame is a mutable object: the store maps a
    reference to the columns it currently holds, and [process_target] and
    [handle_outliers] update the object they are given.

    Libraries.  What scikit-learn, numpy's generator and matplotlib compute
    is not part of the script; those calls are parameters of the model
    (section [Harness]) or events of the trace.  A call into scikit-learn
    either returns or raises, and an exception it raises travels up through
    the script, which catches none of them. *)

From Stdlib Require Import QArith Qcanon Qround ZArith Lia Lqa.
From stdpp Require Import base numbers list sorting strings gmap fin_maps.

Local Open Scope Qc_scope.

(** ** Numbers *)

Inductive npfloat : Type :=
  | nan : npfloat
  | fin : Qc → npfloat.

#[global] Instance npfloat_eq_dec : EqDecision npfloat.
Proof. solve_decision. Defined.

Definition Qc_of_nat (n : nat) : Qc := Q2Qc (inject_Z (Z.of_nat n)).

(** Literals of the script. *)
Definition q_0_25 : Qc := Q2Qc (1 # 4).
Definition q_0_75 : Qc := Q2Qc (3 # 4).
Definition q_1_5 : Qc := Q2Qc (3 # 2).
Definition q_0_2 : Qc := Q2Qc (1 # 5).

Definition float_sub (x y : npfloat) : npfloat :=
  match x, y with
  | fin a, fin b => fin (a - b)
  | _, _ => nan
  end.

Definition float_add (x y : npfloat) : npfloat :=
  match x, y with
  | fin a, fin b => fin (a + b)
  | _, _ => nan
  end.

Definition float_scale (k : Qc) (x : npfloat) : npfloat :=
  match x with
  | fin a => fin (k * a)
  | nan => nan
  end.

(** ** Data frames, the store and the world *)

Abbreviation DataFrame := (gmap string (list Qc)).

Definition loc := positive.

(** A CSV file as it lies on disk: a header and rows whose fields may be
    missing ([None], which pandas reads as NaN). *)
Record csv_file : Type := CsvFile {
  header : list string;
  rows : list (list (option Qc))
}.

(** The generator state of numpy's global [np.random], kept abstract. *)
Definition RandomState := Z.

Inductive event : Type :=
  | EvFetch : event
  | EvPrint : string → event
  | EvPrintValue : string → npfloat → event
  | EvTable : list (string * npfloat) → event
  | EvFigure : event
  | EvPlot : list npfloat → list string → string → event
  | EvTitle : string → event
  | EvXLabel : string → event
  | EvYLabel : string → event
  | EvYTicks : list string → event
  | EvGrid : event
  | EvShow : event.

Record world : Type := World {
  heap : gmap loc DataFrame;
  disk : gmap string csv_file;
  np_random : RandomState;
  trace : list event
}.

(** [KeyError k] is the error of a lookup of the one label [k];
    [KeyErrorNotInIndex ks] is the [KeyError] of a selection of several
    columns, whose argument is a sentence that lists the missing labels
    [ks]; [Dangling] is no Python exception: it marks a reference outside
    the store, which no Python program can hold. *)
Inductive exn : Type :=
  | KeyError : string → exn
  | KeyErrorNotInIndex : list string → exn
  | IndexError : exn
  | ValueError : exn
  | ParserError : exn
  | FileNotFoundError : exn
  | SystemExit : Z → exn
  | Dangling : exn.

Inductive result (A : Type) : Type :=
  | Ok : A → result A
  | Raise : exn → result A.
Arguments Ok {A} _.
Arguments Raise {A} _.

(** ** The monad of the script: a raised exception keeps the world as the
    statements before it left it. *)

Definition M (A : Type) : Type := world → result A * world.

Definition ret {A} (a : A) : M A := λ w, (Ok a, w).

Definition bind {A B} (k : A → M B) (m : M A) : M B :=
  λ w, match m w with
       | (Ok a, w') => k a w'
       | (Raise e, w') => (Raise e, w')
       end.

#[global] Instance M_ret : MRet M := @ret.
#[global] Instance M_bind : MBind M := @bind.

Definition raise {A} (e : exn) : M A := λ w, (Raise e, w).

Definition try_except {A} (m : M A) (handles : exn → bool) (h : M A) : M A :=
  λ w, match m w with
       | (Ok a, w') => (Ok a, w')
       | (Raise e, w') => if handles e then h w' else (Raise e, w')
       end.

Fixpoint for_each {A} (l : list A) (body : A → M unit) : M unit :=
  match l with
  | [] => ret tt
  | x :: l' => body x;; for_each l' body
  end.

Definition emit (e : event) : M unit :=
  λ w, (Ok tt, World (heap w) (disk w) (np_random w) (trace w ++ [e])).

(** ** DataFrame operations on the store *)

Definition load (df : loc) : M DataFrame :=
  λ w, match heap w !! df with
       | Some d => (Ok d, w)
       | None => (Raise Dangling, w)
       end.

Definition store (df : loc) (d : DataFrame) : M unit :=
  λ w, (Ok tt, World (<[df := d]> (heap w)) (disk w) (np_random w) (trace w)).

Definition alloc (d : DataFrame) : M loc :=
  λ w, let l := fresh (dom (heap w)) in
       (Ok l, World (<[l := d]> (heap w)) (disk w) (np_random w) (trace w)).

(** [df[col]] *)
Definition getitem (df : loc) (col : string) : M (list Qc) :=
  d ← load df;
  match d !! col with
  | Some c => ret c
  | None => raise (KeyError col)
  end.

(** [df[col] = values] *)
Definition setitem (df : loc) (col : string) (values : list Qc) : M unit :=
  d ← load df; store df (<[col := values]> d).

(** [df.drop(col, axis=1, inplace=True)] *)
Definition drop_inplace (df : loc) (col : string) : M unit :=
  d ← load df;
  match d !! col with
  | Some _ => store df (delete col d)
  | None => raise (KeyError col)
  end.

(** ** process_target *)

Definition binarize (x : Qc) : Qc := if bool_decide (0 < x) then 1 else 0.

Definition process_target (df : loc) : M loc :=
  num ← getitem df "num";
  setitem df "target" (binarize <$> num);;
  drop_inplace df "num";;
  ret df.

(** ** handle_outliers *)

(** Linear interpolation between the two order statistics around a
    position of the sorted column ([x0] is its first element). *)
Definition interpolate (srt : list Qc) (x0 : Qc) (pos : Qc) : Qc :=
  let lo := Z.to_nat (Qfloor pos) in
  let hi := (lo + 1) `min` (length srt - 1) in
  let a := nth lo srt x0 in
  let b := nth hi srt x0 in
  a + (b - a) * (pos - Qc_of_nat lo).

(** [Series.quantile(q)] for a level [q] between 0 and 1: the value at
    position [q * (n - 1)] of the sorted column; NaN on an empty column. *)
Definition quantile (s : list Qc) (q : Qc) : npfloat :=
  match merge_sort Qcle s with
  | [] => nan
  | x0 :: rest => fin (interpolate (x0 :: rest) x0 (q * Qc_of_nat (length rest)))
  end.

(** [np.where(c < bound, bound, c)]: a comparison with NaN is false in
    every row, so a NaN bound leaves the column as it is. *)
Definition where_lt (c : list Qc) (bound : npfloat) : list Qc :=
  match bound with
  | nan => c
  | fin b => (λ v, if bool_decide (v < b) then b else v) <$> c
  end.

(** [np.where(c > bound, bound, c)] *)
Definition where_gt (c : list Qc) (bound : npfloat) : list Qc :=
  match bound with
  | nan => c
  | fin b => (λ v, if bool_decide (b < v) then b else v) <$> c
  end.

Definition bounded_columns : list string :=
  ["age"; "trestbps"; "chol"; "thalach"; "oldpeak"].

Definition clip_column (df : loc) (col : string) : M unit :=
  c1 ← getitem df col;
  let q1 := quantile c1 q_0_25 in
  c3 ← getitem df col;
  let q3 := quantile c3 q_0_75 in
  let iqr := float_sub q3 q1 in
  let lower_bound := float_sub q1 (float_scale q_1_5 iqr) in
  let upper_bound := float_add q3 (float_scale q_1_5 iqr) in
  c ← getitem df col;
  setitem df col (where_lt c lower_bound);;
  c' ← getitem df col;
  setitem df col (where_gt c' upper_bound).

Definition handle_outliers (df : loc) : M loc :=
  for_each bounded_columns (clip_column df);;
  ret df.

(** The fences of the spec, [Q1 - 1.5 IQR] and [Q3 + 1.5 IQR], of a column. *)
Definition Q1 (c : list Qc) : npfloat := quantile c q_0_25.
Definition Q3 (c : list Qc) : npfloat := quantile c q_0_75.
Definition IQR (c : list Qc) : npfloat := float_sub (Q3 c) (Q1 c).
Definition lower_fence (c : list Qc) : npfloat :=
  float_sub (Q1 c) (float_scale q_1_5 (IQR c)).
Definition upper_fence (c : list Qc) : npfloat :=
  float_add (Q3 c) (float_scale q_1_5 (IQR c)).

(** [lo <= v <= hi] on floats: false as soon as a bound is NaN. *)
Definition within (lo hi : npfloat) (v : Qc) : Prop :=
  match lo, hi with
  | fin a, fin b => a ≤ v ∧ v ≤ b
  | _, _ => False
  end.

(** What the two [np.where] of one column do to one cell. *)
Definition clip (lo hi : npfloat) (v : Qc) : Qc :=
  match lo, hi with
  | fin a, fin b =>
      let v1 := if bool_decide (v < a) then a else v in
      if bool_decide (b < v1) then b else v1
  | _, _ => v
  end.

(** ** Python dictionaries with insertion order *)

Fixpoint dict_lookup {V} (d : list (string * V)) (k : string) : option V :=
  match d with
  | [] => None
  | (k', v) :: d' => if decide (k' = k) then Some v else dict_lookup d' k
  end.

Fixpoint dict_update {V} (d : list (string * V)) (k : string) (v : V)
    : list (string * V) :=
  match d with
  | [] => [(k, v)]
  | (k', v') :: d' =>
      if decide (k' = k) then (k, v) :: d' else (k', v') :: dict_update d' k v
  end.

Definition dict_getitem {V} (d : list (string * V)) (k : string) : M V :=
  match dict_lookup d k with
  | Some v => ret v
  | None => raise (KeyError k)
  end.

(** [d[k].append(x)] *)
Definition dict_append (d : list (string * list Qc)) (k : string) (x : Qc)
    : M (list (string * list Qc)) :=
  l ← dict_getitem d k;
  ret (dict_update d k (l ++ [x])).

(** ** numpy and builtins *)

Definition Qc_sum (l : list Qc) : Qc := foldr Qcplus 0 l.

(** [np.mean]: NaN (and a warning) on an empty sequence, otherwise the sum
    divided by the count.  The division is exact here; the float64 result
    of numpy is this value up to rounding. *)
Definition np_mean (l : list Qc) : npfloat :=
  match l with
  | [] => nan
  | _ :: _ => fin (Qc_sum l / Qc_of_nat (length l))
  end.

(** The nearest integer to [a / b] for a positive [b], a half going to the
    even neighbour. *)
Definition round_half_even (a b : Z) : Z :=
  let f := (a / b)%Z in
  match (2 * (a mod b) ?= b)%Z with
  | Lt => f
  | Gt => (f + 1)%Z
  | Eq => if Z.even f then f else (f + 1)%Z
  end.

(** The float64 that stands for [x]: the nearest number with a mantissa of
    53 bits (fewer below [2^-1022]), a half going to the even mantissa.
    Magnitudes of [2^1024] and more, which float64 turns into infinity, do
    not occur among the metrics. *)
Definition float64 (x : Qc) : Qc :=
  let n := Z.abs (Qnum (this x)) in
  let d := Zpos (Qden (this x)) in
  if (n =? 0)%Z then 0
  else
    let e0 := (Z.log2 n - Z.log2 d)%Z in
    let below := if (0 <=? e0)%Z then (n <? d * 2 ^ e0)%Z
                 else (n * 2 ^ (- e0) <? d)%Z in
    let e := if below then (e0 - 1)%Z else e0 in
    let u := (Z.max e (-1022) - 52)%Z in
    let m := if (0 <=? u)%Z then round_half_even n (d * 2 ^ u)
             else round_half_even (n * 2 ^ (- u)) d in
    let v := if (0 <=? u)%Z then inject_Z (m * 2 ^ u)
             else Qmake m (Z.to_pos (2 ^ (- u))) in
    Q2Qc (if (Qnum (this x) <? 0)%Z then Qopp v else v).

(** [round(x, ndigits)] of a Python float: the multiple of [10^-ndigits]
    nearest to the float64 that stands for [x], a half going to the even
    neighbour.  It is the decimal that is printed; [x] itself is the value
    the metric has in exact arithmetic. *)
Definition round_ndigits (x : Qc) (ndigits : nat) : Qc :=
  let scale := Q2Qc (inject_Z (10 ^ Z.of_nat ndigits)) in
  let r := float64 x * scale in
  let f := Qfloor r in
  let d := r - Q2Qc (inject_Z f) in
  let half := Q2Qc (1 # 2) in
  let n := if bool_decide (d < half) then f
           else if bool_decide (half < d) then (f + 1)%Z
           else if Z.even f then f else (f + 1)%Z in
  Q2Qc (inject_Z n) / scale.

Definition float_round (x : npfloat) (ndigits : nat) : npfloat :=
  match x with
  | fin a => fin (round_ndigits a ndigits)
  | nan => nan
  end.

(** [l[0]] and [l[-1]] *)
Definition first_item (l : list Qc) : M Qc :=
  match l with
  | x :: _ => ret x
  | [] => raise IndexError
  end.

Definition last_item (l : list Qc) : M Qc :=
  match last l with
  | Some x => ret x
  | None => raise IndexError
  end.

(** ** Metrics *)

Definition count_where (P : Qc → Qc → bool) (y_true y_pred : list Qc) : nat :=
  length (filter (λ tp, P tp.1 tp.2 = true) (zip y_true y_pred)).

Definition is_pos (x : Qc) : bool := bool_decide (x = 1).

Definition true_positives := count_where (λ t p, is_pos t && is_pos p).
Definition false_positives := count_where (λ t p, negb (is_pos t) && is_pos p).
Definition false_negatives := count_where (λ t p, is_pos t && negb (is_pos p)).

(** Modelled from the spec: scikit-learn's [precision_score] is not part of
    the script.  Precision is TP / (TP + FP) of the positive label 1, and
    the [zero_division] argument is the score returned when no sample is
    predicted positive. *)
Definition precision_score (y_true y_pred : list Qc) (zero_division : Qc) : Qc :=
  let tp := true_positives y_true y_pred in
  let fp := false_positives y_true y_pred in
  if decide (tp + fp = 0)%nat then zero_division
  else Qc_of_nat tp / Qc_of_nat (tp + fp).

(** Modelled from the spec: scikit-learn's [recall_score] is not part of the
    script.  Recall is TP / (TP + FN), and [zero_division] is the score
    returned when no sample is labelled positive. *)
Definition recall_score (y_true y_pred : list Qc) (zero_division : Qc) : Qc :=
  let tp := true_positives y_true y_pred in
  let fn := false_negatives y_true y_pred in
  if decide (tp + fn = 0)%nat then zero_division
  else Qc_of_nat tp / Qc_of_nat (tp + fn).

Definition print_results (precision recall accuracy mse : Qc) : M unit :=
  let table :=
    [("Precision", fin (round_ndigits precision 3));
     ("Recall", fin (round_ndigits recall 3));
     ("Accuracy", fin (round_ndigits accuracy 3));
     ("Mean Squared Error", fin (round_ndigits mse 3))] in
  emit (EvTable table).

(** ** Pipelines *)

Inductive imputer : Type := SimpleImputer (strategy : string).
Inductive scaler : Type := RobustScaler | StandardScaler.
Inductive classifier : Type :=
  | XGBClassifier (learning_rate : Qc) (max_depth n_estimators : Z)
      (colsample_bytree : Qc)
  | SVC
  | LogisticRegression
  | KNeighborsClassifier.

Record Pipeline : Type := MkPipeline {
  step_imputer : imputer;
  step_scaler : scaler;
  step_clf : classifier
}.

Record split : Type := Split {
  X_train : DataFrame;
  X_test : DataFrame;
  y_train : list Qc;
  y_test : list Qc
}.

(** What the library answered in one round of the harness: the split and
    the predictions of the four models on its test part. *)
Record round : Type := Round {
  round_split : split;
  kn_pred : list Qc;
  lr_pred : list Qc;
  svm_pred : list Qc;
  xgb_pred : list Qc
}.

(** A library call: it may draw from numpy's global generator, and it
    returns a value or raises. *)
Definition lib (A : Type) : Type := RandomState → result A * RandomState.

Definition lib_call {A} (f : lib A) : M A :=
  λ w, let '(r, rs) := f (np_random w) in
       (r, World (heap w) (disk w) rs (trace w)).

Definition lib_bind {A B} (f : lib A) (k : A → lib B) : lib B :=
  λ rs, match f rs with
        | (Ok a, rs1) => k a rs1
        | (Raise e, rs1) => (Raise e, rs1)
        end.

(** Rows of a frame, or of a series, at the given positions. *)
Definition take_items (c : list Qc) (idx : list nat) : list Qc :=
  omap (λ i, c !! i) idx.

Definition take_rows (X : DataFrame) (idx : list nat) : DataFrame :=
  (λ c, take_items c idx) <$> X.

Definition model_names : list string :=
  ["KNeighbors"; "Logistic Regression"; "SVM"; "XGBoost"].

Definition feature_columns : list string :=
  ["age"; "sex"; "cp"; "trestbps"; "chol"; "fbs"; "restecg"; "thalach";
   "exang"; "oldpeak"; "slope"; "ca"; "thal"].

Definition csv_path : string := "heart_disease.csv".

(** ** Reading the input *)

(** The number of fields the parser settles on: that of the header or, if
    it is longer, that of the first row. *)
Definition field_count (f : csv_file) : nat :=
  match rows f with
  | [] => length (header f)
  | r :: _ => length (header f) `max` length r
  end.

(** No row has more fields than that. *)
Definition csv_parses (f : csv_file) : bool :=
  forallb (λ r : list (option Qc), (length r <=? field_count f)%nat) (rows f).

(** The leading fields of every row that pandas takes as the index, when
    the first row is longer than the header. *)
Definition index_fields (f : csv_file) : nat :=
  (field_count f - length (header f))%nat.

(** [pd.read_csv(path)]: [FileNotFoundError] without the file and
    [ParserError] on a row with more fields than the parser has settled
    on; a shorter row is read with its last fields missing. *)
Definition read_csv (path : string) : M csv_file :=
  λ w, match disk w !! path with
       | Some f => if csv_parses f then (Ok f, w) else (Raise ParserError, w)
       | None => (Raise FileNotFoundError, w)
       end.

(** The cells of a row under the [n] header columns, after [skip] index
    fields, when none is missing. *)
Definition complete_row (skip n : nat) (r : list (option Qc))
    : option (list Qc) :=
  mapM (λ j, mjoin (r !! (skip + j)%nat)) (seq 0 n).

(** [df.dropna().reset_index(drop=True)]: the rows without a missing
    field, in their order, as columns. *)
Definition dropna (f : csv_file) : DataFrame :=
  let kept :=
    omap (complete_row (index_fields f) (length (header f))) (rows f) in
  list_to_map (imap (λ j name, (name, omap (λ r : list Qc, r !! j) kept)) (header f)).

(** The columns [cols] of a frame, as a frame of their own. *)
Definition project_columns (d : DataFrame) (cols : list string) : DataFrame :=
  foldr (λ c X, match d !! c with
                | Some v => <[c := v]> X
                | None => X
                end) ∅ cols.

(** [df[[c1; ...; cn]]]: one [KeyError] that lists every selected label the
    frame lacks, in the order of the selection. *)
Definition select_columns (d : DataFrame) (cols : list string) : M DataFrame :=
  match filter (λ c, d !! c = None) cols with
  | [] => ret (project_columns d cols)
  | missing => raise (KeyErrorNotInIndex missing)
  end.

Definition is_FileNotFoundError (e : exn) : bool :=
  match e with
  | FileNotFoundError => true
  | _ => false
  end.

(** [for _ in range(n)] with the variables the body rebinds threaded
    through. *)
Fixpoint for_range {S} (n : nat) (body : S → M S) (s : S) : M S :=
  match n with
  | O => ret s
  | S n' => s' ← body s; for_range n' body s'
  end.

(** ** plot_performance *)

Definition plot_model (mean_accuracies : list (string * npfloat))
    (item : string * list Qc) : M unit :=
  let '(model, acc_list) := item in
  let acc_list_sorted := merge_sort Qcle acc_list in
  lo ← first_item acc_list_sorted;
  hi ← last_item acc_list_sorted;
  emit (EvPlot [fin lo; fin hi] [model; model] "b-");;
  mean ← dict_getitem mean_accuracies model;
  emit (EvPlot [mean] [model] "bo");;
  lo ← first_item acc_list_sorted;
  emit (EvPlot [fin lo] [model] "b|");;
  hi ← last_item acc_list_sorted;
  emit (EvPlot [fin hi] [model] "b|").

Definition plot_performance (accuracies : list (string * list Qc))
    (mean_accuracies : list (string * npfloat)) : M unit :=
  emit EvFigure;;
  for_each accuracies (plot_model mean_accuracies);;
  emit (EvTitle "Accuracy of Different Models");;
  emit (EvXLabel "Accuracy");;
  emit (EvYLabel "Model");;
  emit (EvYTicks (fst <$> accuracies));;
  emit EvGrid;;
  emit EvShow.

(** ** The evaluation harness, over the library calls it makes *)

Section Harness.

(** [np.random.RandomState(seed)] *)
Variable RandomState_seed : Z → RandomState.
(** scikit-learn's shuffle split of [n] rows for a test share: the train
    and the test positions and the generator after the draw, or the
    exception it raises (too few rows). *)
Variable shuffle_split : nat → Qc → lib (list nat * list nat).
(** [cross_val_score(pipeline, X, y, cv=k, scoring='accuracy')] *)
Variable cross_val_score :
  Pipeline → DataFrame → list Qc → nat → lib (list Qc).
(** [pipeline.fit(X_train, y_train)] then [pipeline.predict(X_test)] *)
Variable fit_predict :
  Pipeline → DataFrame → list Qc → DataFrame → lib (list Qc).
Variable accuracy_score : list Qc → list Qc → Qc.
Variable mean_squared_error : list Qc → list Qc → Qc.
(** The acquisition collaborator, as what it does to the files. *)
Variable fetch_data : gmap string csv_file → gmap string csv_file.

(** [train_test_split(X, y, test_size=..., random_state=...)]: an integer
    seed makes a generator of its own; without one the global generator
    is drawn from and advanced. *)
Definition train_test_split (X : DataFrame) (y : list Qc) (test_size : Qc)
    (random_state : option Z) : M split :=
  λ w,
    let rs := match random_state with
              | Some seed => RandomState_seed seed
              | None => np_random w
              end in
    let '(r, rs') := shuffle_split (length y) test_size rs in
    let w' := match random_state with
              | Some _ => w
              | None => World (heap w) (disk w) rs' (trace w)
              end in
    match r with
    | Ok (train, test) =>
        (Ok (Split (take_rows X train) (take_rows X test)
                   (take_items y train) (take_items y test)), w')
    | Raise e => (Raise e, w')
    end.

Definition results (y_test y_pred : list Qc) : M unit :=
  let precision := precision_score y_test y_pred 1 in
  let recall := recall_score y_test y_pred 1 in
  let accuracy := accuracy_score y_test y_pred in
  let mse := mean_squared_error y_test y_pred in
  print_results precision recall accuracy mse.

Definition evaluate_model (pipeline : Pipeline) (sp : split) : M Qc :=
  y_pred ← lib_call (fit_predict pipeline (X_train sp) (y_train sp) (X_test sp));
  results (y_test sp) y_pred;;
  ret (accuracy_score (y_test sp) y_pred).

(** The body the four pipeline functions share; the blank line printed
    before the title is left out of the event. *)
Definition run_pipeline (pipeline : Pipeline) (title : string) (sp : split)
    : M Qc :=
  cv_scores ← lib_call (cross_val_score pipeline (X_train sp) (y_train sp) 5);
  emit (EvPrint title);;
  emit (EvPrintValue "Mean CV accuracy:" (float_round (np_mean cv_scores) 3));;
  evaluate_model pipeline sp.

Definition XGBoost_steps : Pipeline :=
  MkPipeline (SimpleImputer "mean") RobustScaler
    (XGBClassifier (Q2Qc (1 # 10)) 1 50 (Q2Qc (1 # 2))).
Definition SVM_steps : Pipeline :=
  MkPipeline (SimpleImputer "mean") RobustScaler SVC.
Definition LR_steps : Pipeline :=
  MkPipeline (SimpleImputer "mean") StandardScaler LogisticRegression.
Definition KN_steps : Pipeline :=
  MkPipeline (SimpleImputer "mean") StandardScaler KNeighborsClassifier.

Definition XGBoost_pipeline : split → M Qc :=
  run_pipeline XGBoost_steps "Results for XGBoost pipeline:".

Definition SVM_pipeline : split → M Qc :=
  run_pipeline SVM_steps "Results for SVM pipeline:".

Definition LR_pipeline : split → M Qc :=
  run_pipeline LR_steps "Results for Logistic Regression pipeline:".

Definition KN_pipeline : split → M Qc :=
  run_pipeline KN_steps "Results for KNeighbors pipeline:".

(** One turn of the loop of [evaluate_models_iteratively]. *)
Definition iteration (X : DataFrame) (y : list Qc)
    (accuracies : list (string * list Qc)) : M (list (string * list Qc)) :=
  sp ← train_test_split X y q_0_2 None;
  KN_acc ← KN_pipeline sp;
  LR_acc ← LR_pipeline sp;
  SVM_acc ← SVM_pipeline sp;
  XGB_acc ← XGBoost_pipeline sp;
  accuracies ← dict_append accuracies "KNeighbors" KN_acc;
  accuracies ← dict_append accuracies "Logistic Regression" LR_acc;
  accuracies ← dict_append accuracies "SVM" SVM_acc;
  dict_append accuracies "XGBoost" XGB_acc.

Definition initial_accuracies : list (string * list Qc) :=
  [("KNeighbors", []); ("Logistic Regression", []); ("SVM", []);
   ("XGBoost", [])].

(** The traces after the loop and the means computed from them: the two
    arguments of the call to the reporter. *)
Definition collect_accuracies (X : DataFrame) (y : list Qc) (num : nat)
    : M (list (string * list Qc) * list (string * npfloat)) :=
  accuracies ← for_range num (iteration X y) initial_accuracies;
  let mean_accuracies := (λ item, (item.1, np_mean item.2)) <$> accuracies in
  ret (accuracies, mean_accuracies).

Definition evaluate_models_iteratively (X : DataFrame) (y : list Qc)
    (num : nat) : M unit :=
  '(accuracies, mean_accuracies) ← collect_accuracies X y num;
  plot_performance accuracies mean_accuracies.

Definition evaluate_models_once (X : DataFrame) (y : list Qc) : M unit :=
  sp ← train_test_split X y q_0_2 (Some 42%Z);
  KN_pipeline sp;;
  LR_pipeline sp;;
  SVM_pipeline sp;;
  XGBoost_pipeline sp;;
  ret tt.

Definition update_disk (f : gmap string csv_file → gmap string csv_file)
    : M unit :=
  λ w, (Ok tt, World (heap w) (f (disk w)) (np_random w) (trace w)).

Definition call_fetch_data : M unit :=
  emit EvFetch;;
  update_disk fetch_data.

(** [exit(1)] *)
Definition exit (code : Z) : M csv_file := raise (SystemExit code).

Definition load_input : M csv_file :=
  try_except (read_csv csv_path) is_FileNotFoundError
    (call_fetch_data;;
     try_except (read_csv csv_path) is_FileNotFoundError
       (emit (EvPrint "Error fetching data. Please try again.");;
        exit 1)).

(** [main] from the line after the file is read. *)
Definition analyse (raw : csv_file) : M unit :=
  df ← alloc (dropna raw);
  df ← process_target df;
  df ← handle_outliers df;
  d ← load df;
  X ← select_columns d feature_columns;
  y ← getitem df "target";
  evaluate_models_iteratively X y 100;;
  evaluate_models_once X y.

Definition main : M unit :=
  raw ← load_input;
  analyse raw.

(** *** What the library answers during a run

    The calls into scikit-learn that a run makes, in the order the script
    makes them and with the generator threaded through, without anything
    the script itself does with the answers. *)

(** The predictions of a pipeline on a split: cross-validation on the
    training part, then fit and predict. *)
Definition library_pipeline (pipeline : Pipeline) (sp : split) : lib (list Qc) :=
  lib_bind (cross_val_score pipeline (X_train sp) (y_train sp) 5)
    (λ _, fit_predict pipeline (X_train sp) (y_train sp) (X_test sp)).

Definition library_round_on (sp : split) : lib round :=
  lib_bind (library_pipeline KN_steps sp) (λ kn,
  lib_bind (library_pipeline LR_steps sp) (λ lr,
  lib_bind (library_pipeline SVM_steps sp) (λ svm,
  lib_bind (library_pipeline XGBoost_steps sp) (λ xgb,
  λ rs, (Ok (Round sp kn lr svm xgb), rs))))).

Definition split_of (X : DataFrame) (y : list Qc) (idx : list nat * list nat)
    : split :=
  Split (take_rows X idx.1) (take_rows X idx.2)
        (take_items y idx.1) (take_items y idx.2).

(** The rounds of an iterative run: each draws a split from the global
    generator and runs the four pipelines on it. *)
Fixpoint library_rounds (X : DataFrame) (y : list Qc) (num : nat)
    : lib (list round) :=
  match num with
  | O => λ rs, (Ok [], rs)
  | S n =>
      lib_bind (shuffle_split (length y) q_0_2) (λ idx,
      lib_bind (library_round_on (split_of X y idx)) (λ r,
      lib_bind (library_rounds X y n) (λ rest,
      λ rs, (Ok (r :: rest), rs))))
  end.

(** The round of the single run, on the split drawn from the generator
    seeded with 42. *)
Definition library_single_run (X : DataFrame) (y : list Qc) : lib round :=
  λ rs, match shuffle_split (length y) q_0_2 (RandomState_seed 42) with
        | (Ok idx, _) => library_round_on (split_of X y idx) rs
        | (Raise e, _) => (Raise e, rs)
        end.

(** The library calls of [main]: the hundred rounds of the iterative run,
    then the round of the single run. *)
Definition library_main (X : DataFrame) (y : list Qc) : lib unit :=
  lib_bind (library_rounds X y 100) (λ _,
  lib_bind (library_single_run X y) (λ _,
  λ rs, (Ok tt, rs))).


End Harness.

(** The status the interpreter exits with when [main] ends in [r]: the code
    of a [SystemExit], 1 after any other uncaught exception, 0 otherwise. *)
Definition exit_status {A} (r : result A) : Z :=
  match r with
  | Ok _ => 0
  | Raise (SystemExit code) => code
  | Raise _ => 1
  end.

(** ** Reference functions the theorems compare the code with *)

(** The world with another store. *)
Definition with_heap (w : world) (h : gmap loc DataFrame) : world :=
  World h (disk w) (np_random w) (trace w).

(** A column clipped to its own fences. *)
Definition clip_series (c : list Qc) : list Qc :=
  clip (lower_fence c) (upper_fence c) <$> c.

(** A frame whose bounded columns are clipped, one after the other. *)
Definition clip_frame (d : DataFrame) : DataFrame :=
  foldl (λ d col, alter clip_series col d) d bounded_columns.

(** What [main] makes of a file: the labels, the cleaned frame and the
    feature frame it hands to the harness. *)
Definition labels (raw : csv_file) : list Qc :=
  binarize <$> default [] (dropna raw !! "num").

Definition cleaned_frame (raw : csv_file) : DataFrame :=
  clip_frame (delete "num" (<["target" := labels raw]> (dropna raw))).

Definition features (raw : csv_file) : DataFrame :=
  project_columns (cleaned_frame raw) feature_columns.

(** Every cell of the column lies within the column's own fences. *)
Definition inside_own_fences (c : list Qc) : Prop :=
  Forall (within (lower_fence c) (upper_fence c)) c.

(** The four traces, in the order of the dictionary, each of length [n]. *)
Definition traces_of (n : nat) (accuracies : list (string * list Qc)) : Prop :=
  ∃ kn lr svm xgb,
    accuracies = [("KNeighbors", kn); ("Logistic Regression", lr);
                  ("SVM", svm); ("XGBoost", xgb)] ∧
    length kn = n ∧ length lr = n ∧ length svm = n ∧ length xgb = n.

(** A computation that leaves the store and the files as it found them,
    whether it returns or raises. *)
Definition store_kept {A} (m : M A) : Prop :=
  ∀ w, heap (m w).2 = heap w ∧ disk (m w).2 = disk w.

(** A computation that draws nothing from the global generator. *)
Definition generator_kept {A} (m : M A) : Prop :=
  ∀ w, np_random (m w).2 = np_random w.

(** The row names of the table [print_results] prints. *)
Definition metric_names : list string :=
  ["Precision"; "Recall"; "Accuracy"; "Mean Squared Error"].

(** The number of metric tables among some printed events. *)
Definition is_table (e : event) : bool :=
  match e with
  | EvTable _ => true
  | _ => false
  end.

Definition table_count (events : list event) : nat :=
  length (List.filter is_table events).

(** A computation that prints no table, whether it returns or raises. *)
Definition no_tables {A} (m : M A) : Prop :=
  ∀ w, ∃ events, trace (m w).2 = trace w ++ events ∧ table_count events = 0%nat.

(** ** Sample data *)

(** A file with the fourteen columns, ten complete rows and one row that
    lacks fields. *)
Definition sample_csv : csv_file :=
  CsvFile
    ["age"; "sex"; "cp"; "trestbps"; "chol"; "fbs"; "restecg"; "thalach";
     "exang"; "oldpeak"; "slope"; "ca"; "thal"; "num"]
    [(λ z, Some (Qc_of_Z z)) <$> [63; 1; 1; 145; 233; 1; 2; 150; 0; 2; 3; 0; 6; 0]%Z;
     (λ z, Some (Qc_of_Z z)) <$> [67; 1; 4; 160; 286; 0; 2; 108; 1; 1; 2; 3; 3; 2]%Z;
     [Some (Qc_of_Z 37); None; Some (Qc_of_Z 3)];
     (λ z, Some (Qc_of_Z z)) <$> [41; 0; 2; 130; 204; 0; 2; 172; 0; 1; 1; 0; 3; 1]%Z;
     (λ z, Some (Qc_of_Z z)) <$> [56; 1; 2; 120; 236; 0; 0; 178; 0; 1; 1; 0; 3; 0]%Z;
     (λ z, Some (Qc_of_Z z)) <$> [62; 0; 4; 140; 268; 0; 2; 160; 0; 4; 3; 2; 3; 3]%Z;
     (λ z, Some (Qc_of_Z z)) <$> [57; 0; 4; 120; 354; 0; 0; 163; 1; 1; 1; 0; 3; 0]%Z;
     (λ z, Some (Qc_of_Z z)) <$> [63; 1; 4; 130; 254; 0; 2; 147; 0; 1; 2; 1; 7; 0]%Z;
     (λ z, Some (Qc_of_Z z)) <$> [53; 1; 4; 140; 203; 1; 2; 155; 1; 3; 3; 0; 7; 1]%Z;
     (λ z, Some (Qc_of_Z z)) <$> [57; 1; 4; 140; 192; 0; 0; 148; 0; 0; 2; 0; 6; 0]%Z;
     (λ z, Some (Qc_of_Z z)) <$> [56; 0; 2; 140; 294; 0; 2; 153; 0; 1; 2; 0; 3; 0]%Z].

(** The same file without the severity column. *)
Definition unlabelled_csv : csv_file :=
  CsvFile
    ["age"; "sex"; "cp"; "trestbps"; "chol"; "fbs"; "restecg"; "thalach";
     "exang"; "oldpeak"; "slope"; "ca"; "thal"]
    [(λ z, Some (Qc_of_Z z)) <$> [63; 1; 1; 145; 233; 1; 2; 150; 0; 2; 3; 0; 6]%Z].

Definition world_with_file (f : csv_file) : world :=
  World ∅ {[csv_path := f]} 0%Z [].

(** The number of rows of a frame. *)
Definition frame_rows (X : DataFrame) : nat :=
  match map_to_list X with
  | [] => 0
  | (_, c) :: _ => length c
  end.

(** Library calls whose answers do not depend on the generator, to run the
    harness on: a split that leaves the first rows, the share [test_size]
    rounded up, for testing; cross-validation scores of 1; the prediction 0
    for every test row. *)
Definition const_seed (seed : Z) : RandomState := seed.
Definition const_shuffle_split (n : nat) (test_size : Qc)
    : lib (list nat * list nat) :=
  λ rs, let n_test := Z.to_nat (Qceiling (this (test_size * Qc_of_nat n))) in
        (Ok (seq n_test (n - n_test), seq 0 n_test), (rs + 1)%Z).
Definition const_cross_val_score (p : Pipeline) (X : DataFrame) (y : list Qc)
    (cv : nat) : lib (list Qc) :=
  λ rs, (Ok (replicate cv 1), rs).
Definition const_fit_predict (p : Pipeline) (X : DataFrame) (y : list Qc)
    (X_test : DataFrame) : lib (list Qc) :=
  λ rs, (Ok (replicate (frame_rows X_test) 0), rs).
Definition const_score (y_true y_pred : list Qc) : Qc := 1.
(** An acquisition step that fails to produce the file. *)
Definition fetch_nothing (files : gmap string csv_file) : gmap string csv_file :=
  files.

(** A frame of ten rows with one far value in [oldpeak]. *)
Definition sample_frame : DataFrame :=
  list_to_map
    [("age", Qc_of_Z <$> [63; 37; 41; 56; 57; 57; 56; 44; 52; 57]%Z);
     ("trestbps", Qc_of_Z <$> [145; 130; 130; 120; 120; 140; 140; 120; 172; 150]%Z);
     ("chol", Qc_of_Z <$> [233; 250; 204; 236; 354; 192; 294; 263; 199; 168]%Z);
     ("thalach", Qc_of_Z <$> [150; 187; 172; 178; 163; 148; 153; 173; 162; 174]%Z);
     ("oldpeak", Qc_of_Z <$> [1; 2; 3; 4; 5; 6; 7; 8; 9; 1000]%Z);
     ("num", Qc_of_Z <$> [0; 2; 1; 0; 3; 0; 0; 1; 0; 0]%Z)].

Definition sample_world : world := World {[1%positive := sample_frame]} ∅ 0%Z [].

(** Its labels, and the partition that leaves its first two rows for
    testing. *)
Definition sample_labels : list Qc :=
  Qc_of_Z <$> [0; 1; 1; 0; 1; 0; 0; 1; 0; 0]%Z.

(** A frame whose [age] column has one low value among equal ones. *)
Definition skewed_frame : DataFrame :=
  list_to_map
    [("age", Qc_of_Z <$> [0; 1; 1; 1]%Z);
     ("trestbps", Qc_of_Z <$> [120; 120; 120; 120]%Z);
     ("chol", Qc_of_Z <$> [200; 200; 200; 200]%Z);
     ("thalach", Qc_of_Z <$> [150; 150; 150; 150]%Z);
     ("oldpeak", Qc_of_Z <$> [1; 1; 1; 1]%Z)].

Definition skewed_world : world := World {[1%positive := skewed_frame]} ∅ 0%Z [].

(** * Proofs *)

(** ** Rational arithmetic *)

Lemma this_Q2Qc (q : Q) : (this (Q2Qc q) == q)%Q.
Proof. apply Qred_correct. Qed.

#[local] Instance Q2Qc_proper : Proper (Qeq ==> eq) Q2Qc.
Proof. intros x y Hxy. by apply Q2Qc_eq_iff. Qed.

(** Goals on [Qc] restated on [Q], where [lra] and [nra] apply. *)
Ltac qc2q :=
  unfold Qcle, Qclt, Qcminus, Qcplus, Qcopp, Qcmult in *;
  repeat setoid_rewrite this_Q2Qc;
  repeat match goal with
         | H : _ |- _ => progress (repeat setoid_rewrite this_Q2Qc in H)
         end.

Lemma lerp_between (a b f : Qc) :
  a ≤ b → 0 ≤ f → f ≤ 1 → a ≤ a + (b - a) * f ∧ a + (b - a) * f ≤ b.
Proof. intros Hab Hf0 Hf1. qc2q. split; nra. Qed.

Lemma lerp_mono (a b f g : Qc) :
  a ≤ b → f ≤ g → a + (b - a) * f ≤ a + (b - a) * g.
Proof. intros Hab Hfg. qc2q. nra. Qed.

Lemma Qc_of_nat_this (n : nat) :
  (this (Qc_of_nat n) == inject_Z (Z.of_nat n))%Q.
Proof. unfold Qc_of_nat. apply this_Q2Qc. Qed.

Lemma Qc_of_nat_nonneg (n : nat) : 0 ≤ Qc_of_nat n.
Proof.
  unfold Qcle. rewrite Qc_of_nat_this. change (this 0) with (inject_Z 0).
  rewrite <- Zle_Qle. lia.
Qed.

Lemma Qfloor_nonneg (p : Qc) : 0 ≤ p → (0 ≤ Qfloor p)%Z.
Proof.
  intros Hp. change 0%Z with (Qfloor 0). by apply Qfloor_resp_le.
Qed.

Lemma floor_this (p : Qc) :
  0 ≤ p → (this (Qc_of_nat (Z.to_nat (Qfloor p))) == inject_Z (Qfloor p))%Q.
Proof.
  intros Hp. rewrite Qc_of_nat_this, Z2Nat.id; [done|]. by apply Qfloor_nonneg.
Qed.

(** The fractional part of a position lies in [0, 1]. *)
Lemma frac_bounds (p : Qc) :
  0 ≤ p →
  0 ≤ p - Qc_of_nat (Z.to_nat (Qfloor p)) ∧
  p - Qc_of_nat (Z.to_nat (Qfloor p)) ≤ 1.
Proof.
  intros Hp. pose proof (floor_this p Hp) as Hfl.
  pose proof (Qfloor_le p) as Hlo. pose proof (Qlt_floor p) as Hhi.
  rewrite inject_Z_plus in Hhi.
  qc2q. rewrite Hfl. change (this 1) with 1%Q. change (this 0) with 0%Q.
  change (inject_Z 1) with 1%Q in Hhi. split; lra.
Qed.

(** The floor of a position inside the column is an index of the column. *)
Lemma floor_index (p : Qc) (m : nat) :
  0 ≤ p → p ≤ Qc_of_nat m → (Z.to_nat (Qfloor p) ≤ m)%nat.
Proof.
  intros Hp Hm. pose proof (Qfloor_nonneg p Hp).
  assert (Qfloor p ≤ Z.of_nat m)%Z; [|lia].
  rewrite <- (Qfloor_Z (Z.of_nat m)). apply Qfloor_resp_le.
  unfold Qcle in Hm. by rewrite Qc_of_nat_this in Hm.
Qed.

(** ** Order statistics and quantiles *)

Lemma nth_sorted (l : list Qc) (d : Qc) (i j : nat) :
  StronglySorted Qcle l → (i ≤ j)%nat → (j < length l)%nat →
  nth i l d ≤ nth j l d.
Proof.
  intros Hs. revert i j. induction Hs as [|x l Hs IH Hx]; intros i j Hij Hj.
  - simpl in Hj. lia.
  - destruct j as [|j]; [replace i with 0%nat by lia; apply Qcle_refl|].
    destruct i as [|i]; simpl in *.
    + rewrite Forall_forall in Hx. apply Hx, list_elem_of_In, nth_In. lia.
    + apply IH; lia.
Qed.

Section Interpolate.
Variables (srt : list Qc) (x0 : Qc).
Hypothesis Hsorted : StronglySorted Qcle srt.
Hypothesis Hlen : (0 < length srt)%nat.

Let top : Qc := Qc_of_nat (length srt - 1).

Lemma interpolate_bracket (p : Qc) :
  0 ≤ p → p ≤ top →
  nth (Z.to_nat (Qfloor p)) srt x0 ≤ interpolate srt x0 p ∧
  interpolate srt x0 p
    ≤ nth ((Z.to_nat (Qfloor p) + 1) `min` (length srt - 1)) srt x0.
Proof.
  intros Hp Htop. unfold interpolate.
  pose proof (floor_index p _ Hp Htop) as Hlo.
  destruct (frac_bounds p Hp) as [Hf0 Hf1].
  apply lerp_between; [|done..].
  apply nth_sorted; [done|lia..].
Qed.

Lemma interpolate_mono (p p' : Qc) :
  0 ≤ p → p ≤ p' → p' ≤ top → interpolate srt x0 p ≤ interpolate srt x0 p'.
Proof.
  intros Hp Hpp' Htop.
  assert (Hp' : 0 ≤ p') by (by eapply Qcle_trans).
  assert (Hptop : p ≤ top) by (by eapply Qcle_trans).
  pose proof (floor_index p _ Hp Hptop) as Hlo.
  pose proof (floor_index p' _ Hp' Htop) as Hlo'.
  assert (Hfl : (Qfloor p ≤ Qfloor p')%Z) by (by apply Qfloor_resp_le).
  pose proof (Qfloor_nonneg p Hp) as Hnn.
  destruct (decide (Qfloor p = Qfloor p')) as [Heq|Hne].
  - unfold interpolate. rewrite <- Heq.
    apply lerp_mono; [apply nth_sorted; [done|lia..]|].
    clear -Hpp'. qc2q. lra.
  - destruct (interpolate_bracket p Hp Hptop) as [_ H1].
    destruct (interpolate_bracket p' Hp' Htop) as [H2 _].
    eapply Qcle_trans; [exact H1|]. eapply Qcle_trans; [|exact H2].
    apply nth_sorted; [done|lia..].
Qed.
End Interpolate.

(** The first quartile is at most the third; both are NaN together, on an
    empty column only. *)
Lemma quartiles_ordered (c : list Qc) :
  match Q1 c, Q3 c with
  | fin a, fin b => a ≤ b
  | nan, nan => c = []
  | _, _ => False
  end.
Proof.
  unfold Q1, Q3, quantile.
  pose proof (StronglySorted_merge_sort Qcle c) as Hs.
  pose proof (merge_sort_Permutation Qcle c) as Hperm.
  destruct (merge_sort Qcle c) as [|x0 rest].
  - symmetry in Hperm. by apply Permutation_nil_r in Hperm.
  - pose proof (Qc_of_nat_nonneg (length rest)) as Hm.
    apply interpolate_mono; [done|simpl; lia|..].
    + clear -Hm. unfold q_0_25. qc2q. change (this 0) with 0%Q in *. nra.
    + clear -Hm. unfold q_0_25, q_0_75. qc2q. change (this 0) with 0%Q in *. nra.
    + simpl. rewrite Nat.sub_0_r. clear -Hm. unfold q_0_75. qc2q.
      change (this 0) with 0%Q in *. nra.
Qed.

Lemma fences_ordered (c : list Qc) :
  match lower_fence c, upper_fence c with
  | fin lo, fin hi => lo ≤ hi
  | nan, nan => c = []
  | _, _ => False
  end.
Proof.
  unfold lower_fence, upper_fence, IQR.
  pose proof (quartiles_ordered c) as H.
  destruct (Q1 c) as [|a], (Q3 c) as [|b]; simpl; try done.
  unfold q_1_5. clear -H. qc2q. nra.
Qed.

(** ** Running the monad *)

Lemma bind_run {A B} (m : M A) (k : A → M B) (w w' : world) (a : A) :
  m w = (Ok a, w') → (m ≫= k) w = k a w'.
Proof. intros H. unfold mbind, M_bind, bind. by rewrite H. Qed.

Lemma bind_raise {A B} (m : M A) (k : A → M B) (w w' : world) (e : exn) :
  m w = (Raise e, w') → (m ≫= k) w = (Raise e, w').
Proof. intros H. unfold mbind, M_bind, bind. by rewrite H. Qed.

Lemma with_heap_id (w : world) : with_heap w (heap w) = w.
Proof. by destruct w. Qed.

Lemma getitem_run (w : world) (df : loc) (d : DataFrame) (col : string)
    (c : list Qc) :
  heap w !! df = Some d → d !! col = Some c → getitem df col w = (Ok c, w).
Proof.
  intros Hd Hc. unfold getitem, load, mbind, M_bind, bind.
  by rewrite Hd, Hc.
Qed.

Lemma setitem_run (w : world) (df : loc) (d : DataFrame) (col : string)
    (v : list Qc) :
  heap w !! df = Some d →
  setitem df col v w = (Ok (), with_heap w (<[df := <[col := v]> d]> (heap w))).
Proof.
  intros Hd. unfold setitem, load, store, mbind, M_bind, bind.
  by rewrite Hd.
Qed.

Lemma drop_inplace_run (w : world) (df : loc) (d : DataFrame) (col : string)
    (c : list Qc) :
  heap w !! df = Some d → d !! col = Some c →
  drop_inplace df col w = (Ok (), with_heap w (<[df := delete col d]> (heap w))).
Proof.
  intros Hd Hc. unfold drop_inplace, load, store, mbind, M_bind, bind.
  by rewrite Hd, Hc.
Qed.

Lemma heap_with_heap (w : world) (h : gmap loc DataFrame) :
  heap (with_heap w h) = h.
Proof. done. Qed.

Lemma with_heap_with_heap (w : world) (h h' : gmap loc DataFrame) :
  with_heap (with_heap w h) h' = with_heap w h'.
Proof. done. Qed.

(** ** The clipper, statement by statement *)

Lemma where_clip (c : list Qc) (lo hi : npfloat) :
  (lo = nan ↔ hi = nan) → where_gt (where_lt c lo) hi = clip lo hi <$> c.
Proof.
  intros Hnan. destruct lo as [|a], hi as [|b]; simpl.
  - by rewrite list_fmap_id.
  - destruct Hnan as [H _]. by specialize (H eq_refl).
  - destruct Hnan as [_ H]. by specialize (H eq_refl).
  - by rewrite <- list_fmap_compose.
Qed.

Lemma fences_nan (c : list Qc) : lower_fence c = nan ↔ upper_fence c = nan.
Proof.
  pose proof (fences_ordered c) as H.
  destruct (lower_fence c), (upper_fence c); done.
Qed.

Lemma clip_column_run (w : world) (df : loc) (d : DataFrame) (col : string)
    (c : list Qc) :
  heap w !! df = Some d → d !! col = Some c →
  clip_column df col w
  = (Ok (), with_heap w (<[df := alter clip_series col d]> (heap w))).
Proof.
  intros Hd Hc. unfold clip_column.
  rewrite (bind_run _ _ w w c) by (by eapply getitem_run).
  rewrite (bind_run _ _ w w c) by (by eapply getitem_run).
  rewrite (bind_run _ _ w w c) by (by eapply getitem_run).
  erewrite bind_run by (by eapply setitem_run).
  erewrite bind_run; cycle 1.
  { eapply getitem_run; [apply lookup_insert_eq|apply lookup_insert_eq]. }
  erewrite setitem_run by apply lookup_insert_eq.
  rewrite with_heap_with_heap, heap_with_heap, !insert_insert_eq.
  do 2 f_equal. f_equal.
  change (where_gt (where_lt c _) _)
    with (where_gt (where_lt c (lower_fence c)) (upper_fence c)).
  rewrite where_clip by apply fences_nan.
  apply map_eq. intros k. destruct (decide (k = col)) as [->|Hne].
  - by rewrite lookup_insert_eq, lookup_alter_eq, Hc.
  - by rewrite lookup_insert_ne, lookup_alter_ne.
Qed.

Lemma clip_columns_run (cols : list string) (w : world) (df : loc)
    (d : DataFrame) :
  heap w !! df = Some d →
  (∀ col, col ∈ cols → is_Some (d !! col)) →
  for_each cols (clip_column df) w
  = (Ok (), with_heap w
              (<[df := foldl (λ d col, alter clip_series col d) d cols]> (heap w))).
Proof.
  revert w d. induction cols as [|col cols IH]; intros w d Hd Hcols; simpl.
  - by rewrite insert_id, with_heap_id.
  - destruct (Hcols col) as [c Hc]; [set_solver|].
    erewrite bind_run by (by eapply clip_column_run).
    rewrite (IH _ (alter clip_series col d)).
    + by rewrite with_heap_with_heap, heap_with_heap, insert_insert_eq.
    + apply lookup_insert_eq.
    + intros col' Hin. apply lookup_alter_is_Some, Hcols. set_solver.
Qed.

Lemma handle_outliers_run (w : world) (df : loc) (d : DataFrame) :
  heap w !! df = Some d →
  (∀ col, col ∈ bounded_columns → is_Some (d !! col)) →
  handle_outliers df w
  = (Ok df, with_heap w (<[df := clip_frame d]> (heap w))).
Proof.
  intros Hd Hcols. unfold handle_outliers.
  erewrite bind_run by (by eapply clip_columns_run). done.
Qed.

Lemma foldl_alter_lookup {V} (f : V → V) (cols : list string)
    (d : gmap string V) (col : string) :
  NoDup cols →
  foldl (λ d c, alter f c d) d cols !! col
  = if decide (col ∈ cols) then f <$> d !! col else d !! col.
Proof.
  intros Hnd. revert d. induction Hnd as [|c cols Hc Hnd IH]; intros d; simpl.
  - destruct (decide (col ∈ [])) as [Hin|]; [|done].
    by apply elem_of_nil in Hin.
  - rewrite IH. destruct (decide (col = c)) as [->|Hne].
    + rewrite (decide_False (P := c ∈ cols)) by done.
      rewrite (decide_True (P := c ∈ c :: cols)) by apply list_elem_of_here.
      by rewrite lookup_alter_eq.
    + rewrite lookup_alter_ne by done.
      destruct (decide (col ∈ cols)) as [Hin|Hin].
      * by rewrite decide_True by (by apply list_elem_of_further).
      * rewrite decide_False; [done|].
        intros [?|?]%elem_of_cons; done.
Qed.

Lemma bounded_columns_NoDup : NoDup bounded_columns.
Proof. apply (bool_decide_unpack _). by vm_compute. Qed.

Lemma clip_frame_bounded (d : DataFrame) (col : string) :
  col ∈ bounded_columns → clip_frame d !! col = clip_series <$> d !! col.
Proof.
  intros Hin. unfold clip_frame.
  rewrite foldl_alter_lookup by apply bounded_columns_NoDup.
  by rewrite decide_True.
Qed.

Lemma clip_frame_other (d : DataFrame) (col : string) :
  col ∉ bounded_columns → clip_frame d !! col = d !! col.
Proof.
  intros Hin. unfold clip_frame.
  rewrite foldl_alter_lookup by apply bounded_columns_NoDup.
  by rewrite decide_False.
Qed.

Lemma clip_within (lo hi v : Qc) :
  lo ≤ hi → within (fin lo) (fin hi) (clip (fin lo) (fin hi) v).
Proof.
  intros Hle. unfold within, clip.
  destruct (bool_decide_reflect (v < lo)) as [H1|H1].
  - destruct (bool_decide_reflect (hi < lo)) as [H2|H2].
    + by apply Qclt_not_le in H2.
    + split; [apply Qcle_refl|done].
  - apply Qcnot_lt_le in H1.
    destruct (bool_decide_reflect (hi < v)) as [H2|H2].
    + split; [done|apply Qcle_refl].
    + by apply Qcnot_lt_le in H2.
Qed.

Lemma clip_inside (lo hi : npfloat) (v : Qc) :
  within lo hi v → clip lo hi v = v.
Proof.
  destruct lo as [|a], hi as [|b]; unfold within, clip; try done.
  intros [H1 H2].
  rewrite (bool_decide_false (v < a)) by (by apply Qcle_not_lt).
  by rewrite (bool_decide_false (b < v)) by (by apply Qcle_not_lt).
Qed.

Lemma clip_series_within (c : list Qc) :
  Forall (within (lower_fence c) (upper_fence c)) (clip_series c).
Proof.
  unfold clip_series. apply Forall_fmap, Forall_forall. intros v Hv. simpl.
  pose proof (fences_ordered c) as H.
  destruct (lower_fence c) as [|lo], (upper_fence c) as [|hi]; try done.
  - subst c. by apply elem_of_nil in Hv.
  - by apply clip_within.
Qed.

Lemma clip_series_fixed (c : list Qc) :
  inside_own_fences c ↔ clip_series c = c.
Proof.
  unfold inside_own_fences, clip_series. split.
  - intros H. transitivity (id <$> c); [|apply list_fmap_id].
    apply Forall_fmap_ext_1.
    eapply Forall_impl; [exact H|]. intros v Hv. by apply clip_inside.
  - intros H. pose proof (clip_series_within c) as Hw.
    unfold clip_series in Hw. by rewrite H in Hw.
Qed.

(** ** The target encoder *)

Lemma binarize_binary (x : Qc) : binarize x = 0 ∨ binarize x = 1.
Proof. unfold binarize. case_bool_decide; auto. Qed.

Lemma binarize_one (x : Qc) : binarize x = 1 ↔ 0 < x.
Proof.
  unfold binarize. case_bool_decide as H; [done|].
  split; [|done]. intros H1. symmetry in H1. by apply Q_apart_0_1 in H1.
Qed.

(** C1.  On a frame with a [num] column the target encoder returns the frame
    it was given, now with a [target] column that has one label per row,
    every label 0 or 1, the label being 1 exactly when the row's severity
    is above 0, and without the [num] column. *)
Theorem process_target_binary (w : world) (df : loc) (d : DataFrame)
    (num : list Qc) :
  heap w !! df = Some d →
  d !! "num" = Some num →
  ∃ w' d' target,
    process_target df w = (Ok df, w') ∧
    heap w' !! df = Some d' ∧
    d' !! "target" = Some target ∧
    d' !! "num" = None ∧
    length target = length num ∧
    Forall (λ t, t = 0 ∨ t = 1) target ∧
    ∀ i x t, num !! i = Some x → target !! i = Some t → (t = 1 ↔ 0 < x).
Proof.
  intros Hd Hnum.
  eexists _, (delete "num" (<["target" := binarize <$> num]> d)), _.
  split; [|split; [|split; [|split; [|split; [|split]]]]].
  - unfold process_target.
    erewrite bind_run by (by eapply getitem_run).
    erewrite bind_run by (by eapply setitem_run).
    erewrite bind_run; [reflexivity|].
    eapply drop_inplace_run; [apply lookup_insert_eq|].
    rewrite lookup_insert_ne by done. exact Hnum.
  - cbn [heap with_heap]. rewrite insert_insert_eq. apply lookup_insert_eq.
  - rewrite lookup_delete_ne by done. apply lookup_insert_eq.
  - apply lookup_delete_eq.
  - apply length_fmap.
  - apply Forall_fmap, Forall_forall. intros x _. apply binarize_binary.
  - intros i x t Hx Ht. rewrite list_lookup_fmap, Hx in Ht.
    injection Ht as <-. apply binarize_one.
Qed.

Lemma process_target_binary_witness :
  ∃ w' d' target,
    process_target 1%positive sample_world = (Ok 1%positive, w') ∧
    heap w' !! 1%positive = Some d' ∧
    d' !! "target" = Some target ∧
    d' !! "num" = None ∧
    length target = length (Qc_of_Z <$> [0; 2; 1; 0; 3; 0; 0; 1; 0; 0]%Z) ∧
    Forall (λ t, t = 0 ∨ t = 1) target ∧
    ∀ i x t, (Qc_of_Z <$> [0; 2; 1; 0; 3; 0; 0; 1; 0; 0]%Z) !! i = Some x →
             target !! i = Some t → (t = 1 ↔ 0 < x).
Proof.
  apply (process_target_binary sample_world 1%positive sample_frame).
  - reflexivity.
  - apply (bool_decide_unpack _). vm_compute. reflexivity.
Defined.

(** ** The outlier clipper *)

Lemma columns_present (d : DataFrame) (cols : list string) :
  bool_decide (Forall (λ col, is_Some (d !! col)) cols) = true →
  ∀ col, col ∈ cols → is_Some (d !! col).
Proof. intros H%bool_decide_eq_true. by apply Forall_forall. Qed.

(** C2.  On a frame that has the five bounded columns the clipper returns,
    and afterwards every value of each bounded column lies between the
    lower and the upper fence computed from the column as the clipper
    found it. *)
Theorem handle_outliers_within_fences (w : world) (df : loc) (d : DataFrame) :
  heap w !! df = Some d →
  (∀ col, col ∈ bounded_columns → is_Some (d !! col)) →
  ∃ w' d',
    handle_outliers df w = (Ok df, w') ∧
    heap w' !! df = Some d' ∧
    ∀ col c, col ∈ bounded_columns → d !! col = Some c →
      ∃ c', d' !! col = Some c' ∧
            Forall (within (lower_fence c) (upper_fence c)) c'.
Proof.
  intros Hd Hcols. eexists _, (clip_frame d).
  split; [by apply handle_outliers_run|]. split; [apply lookup_insert_eq|].
  intros col c Hin Hc. exists (clip_series c). split.
  - by rewrite clip_frame_bounded, Hc.
  - apply clip_series_within.
Qed.

Lemma handle_outliers_within_fences_witness :
  ∃ w' d',
    handle_outliers 1%positive sample_world = (Ok 1%positive, w') ∧
    heap w' !! 1%positive = Some d' ∧
    ∀ col c, col ∈ bounded_columns → sample_frame !! col = Some c →
      ∃ c', d' !! col = Some c' ∧
            Forall (within (lower_fence c) (upper_fence c)) c'.
Proof.
  apply (handle_outliers_within_fences sample_world 1%positive sample_frame).
  - reflexivity.
  - apply columns_present. vm_compute. reflexivity.
Defined.

Lemma clip_frame_lookup (d : DataFrame) (col : string) :
  clip_frame d !! col
  = if decide (col ∈ bounded_columns) then clip_series <$> d !! col
    else d !! col.
Proof.
  case_decide; [by apply clip_frame_bounded|by apply clip_frame_other].
Qed.

(** C10.  On a frame that has the five bounded columns the clipper keeps
    the set of columns, leaves every column that is not bounded as it was,
    and keeps each column's length and row order: row [i] of a bounded
    column is row [i] of the input clipped, row [i] of any other column is
    row [i] of the input. *)
Theorem handle_outliers_frame (w : world) (df : loc) (d : DataFrame) :
  heap w !! df = Some d →
  (∀ col, col ∈ bounded_columns → is_Some (d !! col)) →
  ∃ w' d',
    handle_outliers df w = (Ok df, w') ∧
    heap w' !! df = Some d' ∧
    dom d' = dom d ∧
    (∀ col, col ∉ bounded_columns → d' !! col = d !! col) ∧
    ∀ col c, d !! col = Some c →
      ∃ c', d' !! col = Some c' ∧
            length c' = length c ∧
            ∀ i v, c !! i = Some v →
              c' !! i = Some (if decide (col ∈ bounded_columns)
                              then clip (lower_fence c) (upper_fence c) v
                              else v).
Proof.
  intros Hd Hcols. eexists _, (clip_frame d).
  split; [by apply handle_outliers_run|]. split; [apply lookup_insert_eq|].
  split; [|split].
  - apply set_eq. intros col. rewrite !elem_of_dom, clip_frame_lookup.
    case_decide; [|done]. by rewrite fmap_is_Some.
  - apply clip_frame_other.
  - intros col c Hc. rewrite clip_frame_lookup, Hc. case_decide.
    + exists (clip_series c). split; [done|]. split.
      * unfold clip_series. apply length_fmap.
      * intros i v Hv. unfold clip_series. by rewrite list_lookup_fmap, Hv.
    + by exists c.
Qed.

Lemma handle_outliers_frame_witness :
  ∃ w' d',
    handle_outliers 1%positive sample_world = (Ok 1%positive, w') ∧
    heap w' !! 1%positive = Some d' ∧
    dom d' = dom sample_frame ∧
    (∀ col, col ∉ bounded_columns → d' !! col = sample_frame !! col) ∧
    ∀ col c, sample_frame !! col = Some c →
      ∃ c', d' !! col = Some c' ∧
            length c' = length c ∧
            ∀ i v, c !! i = Some v →
              c' !! i = Some (if decide (col ∈ bounded_columns)
                              then clip (lower_fence c) (upper_fence c) v
                              else v).
Proof.
  apply (handle_outliers_frame sample_world 1%positive sample_frame).
  - reflexivity.
  - apply columns_present. vm_compute. reflexivity.
Defined.

(** C7, as claimed, fails: the frame the caller passed holds 1000 in the
    last row of [oldpeak] before the call and 29/2 after it. *)
Lemma handle_outliers_mutates_argument :
  heap sample_world !! 1%positive = Some sample_frame ∧
  ∃ d', heap (handle_outliers 1%positive sample_world).2 !! 1%positive = Some d' ∧
        d' ≠ sample_frame ∧
        sample_frame !! "oldpeak" ≫= last = Some (Qc_of_Z 1000) ∧
        d' !! "oldpeak" ≫= last = Some (Q2Qc (29 # 2)).
Proof.
  split; [reflexivity|]. eexists. split; [|split; [|split]].
  - rewrite (handle_outliers_run sample_world 1%positive sample_frame).
    + apply lookup_insert_eq.
    + reflexivity.
    + apply columns_present. vm_compute. reflexivity.
  - intros H.
    apply (f_equal (λ d : DataFrame, d !! "oldpeak" ≫= last)) in H.
    revert H. apply (bool_decide_unpack _). vm_compute. reflexivity.
  - apply (bool_decide_unpack _). vm_compute. reflexivity.
  - apply (bool_decide_unpack _). vm_compute. reflexivity.
Qed.

(** C7, amended.  The clipper works in place: it returns the reference it
    was given, the object behind it now holds the clipped columns, and
    nothing else changes: the other objects of the store, the files, the
    generator and the output are as before the call. *)
Theorem handle_outliers_in_place (w : world) (df : loc) (d : DataFrame) :
  heap w !! df = Some d →
  (∀ col, col ∈ bounded_columns → is_Some (d !! col)) →
  ∃ w',
    handle_outliers df w = (Ok df, w') ∧
    heap w' !! df = Some (clip_frame d) ∧
    (∀ l, l ≠ df → heap w' !! l = heap w !! l) ∧
    disk w' = disk w ∧ np_random w' = np_random w ∧ trace w' = trace w.
Proof.
  intros Hd Hcols. eexists. split; [by apply handle_outliers_run|].
  split; [apply lookup_insert_eq|]. split; [|done].
  intros l Hl. by apply lookup_insert_ne.
Qed.

Lemma handle_outliers_in_place_witness :
  ∃ w',
    handle_outliers 1%positive sample_world = (Ok 1%positive, w') ∧
    heap w' !! 1%positive = Some (clip_frame sample_frame) ∧
    (∀ l, l ≠ 1%positive → heap w' !! l = heap sample_world !! l) ∧
    disk w' = disk sample_world ∧ np_random w' = np_random sample_world ∧
    trace w' = trace sample_world.
Proof.
  apply (handle_outliers_in_place sample_world 1%positive sample_frame).
  - reflexivity.
  - apply columns_present. vm_compute. reflexivity.
Defined.

(** C9, as claimed, fails: clipping [0; 1; 1; 1] gives [3/8; 1; 1; 1], whose
    own lower fence is 39/64, so a second pass moves the first row again. *)
Lemma handle_outliers_twice_differs :
  ∃ w1 w2 d1 d2,
    handle_outliers 1%positive skewed_world = (Ok 1%positive, w1) ∧
    handle_outliers 1%positive w1 = (Ok 1%positive, w2) ∧
    heap w1 !! 1%positive = Some d1 ∧
    heap w2 !! 1%positive = Some d2 ∧
    d1 !! "age" = Some [Q2Qc (3 # 8); 1; 1; 1] ∧
    d2 !! "age" = Some [Q2Qc (39 # 64); 1; 1; 1] ∧
    d2 ≠ d1.
Proof.
  eexists _, _, _, _.
  split; [apply (handle_outliers_run skewed_world 1%positive skewed_frame);
          [reflexivity|apply columns_present; vm_compute; reflexivity]|].
  split; [eapply handle_outliers_run;
          [apply lookup_insert_eq
          |apply columns_present; vm_compute; reflexivity]|].
  split; [apply lookup_insert_eq|]. split; [apply lookup_insert_eq|].
  split; [apply (bool_decide_unpack _); vm_compute; reflexivity|].
  split; [apply (bool_decide_unpack _); vm_compute; reflexivity|].
  intros H. apply (f_equal (λ d : DataFrame, d !! "age")) in H.
  revert H. apply (bool_decide_unpack _). vm_compute. reflexivity.
Qed.

Lemma clip_frame_fixed (d : DataFrame) :
  clip_frame d = d ↔
  ∀ col c, col ∈ bounded_columns → d !! col = Some c → inside_own_fences c.
Proof.
  split.
  - intros H col c Hin Hc. apply clip_series_fixed.
    apply (f_equal (λ d' : DataFrame, d' !! col)) in H.
    rewrite clip_frame_bounded, Hc in H by done. by injection H.
  - intros H. apply map_eq. intros col. rewrite clip_frame_lookup.
    case_decide as Hin; [|done].
    destruct (d !! col) as [c|] eqn:Hc; [|done]. simpl. f_equal.
    by apply clip_series_fixed, (H col).
Qed.

(** On the sample frame the far value is clipped and a second pass changes
    nothing: the quartiles did not move. *)
Example sample_second_pass_unchanged :
  clip_frame sample_frame ≠ sample_frame ∧
  clip_frame (clip_frame sample_frame) = clip_frame sample_frame.
Proof.
  split.
  - intros H. revert H. apply (bool_decide_unpack _). vm_compute. reflexivity.
  - apply (bool_decide_unpack _). vm_compute. reflexivity.
Qed.

(** C9, amended.  A second pass of the clipper changes nothing exactly when
    every value of each bounded column of the first pass's result lies
    within the fences computed again from that result. *)
Theorem handle_outliers_idempotent_iff (w : world) (df : loc) (d : DataFrame) :
  heap w !! df = Some d →
  (∀ col, col ∈ bounded_columns → is_Some (d !! col)) →
  ∃ w1 d1,
    handle_outliers df w = (Ok df, w1) ∧
    heap w1 !! df = Some d1 ∧
    (handle_outliers df w1 = (Ok df, w1) ↔
     ∀ col c1, col ∈ bounded_columns → d1 !! col = Some c1 →
       inside_own_fences c1).
Proof.
  intros Hd Hcols. eexists _, (clip_frame d).
  split; [by apply handle_outliers_run|]. split; [apply lookup_insert_eq|].
  rewrite <- clip_frame_fixed.
  rewrite (handle_outliers_run _ df (clip_frame d)); cycle 1.
  { apply lookup_insert_eq. }
  { intros col Hin. rewrite clip_frame_bounded by done.
    apply fmap_is_Some. by apply Hcols. }
  rewrite with_heap_with_heap, heap_with_heap, insert_insert_eq. split.
  - intros H.
    apply (f_equal (λ r : result loc * world, heap r.2 !! df)) in H.
    cbn [snd heap with_heap] in H. rewrite !lookup_insert_eq in H.
    by injection H.
  - by intros ->.
Qed.

Lemma handle_outliers_idempotent_iff_witness :
  ∃ w1 d1,
    handle_outliers 1%positive sample_world = (Ok 1%positive, w1) ∧
    heap w1 !! 1%positive = Some d1 ∧
    (handle_outliers 1%positive w1 = (Ok 1%positive, w1) ↔
     ∀ col c1, col ∈ bounded_columns → d1 !! col = Some c1 →
       inside_own_fences c1).
Proof.
  apply (handle_outliers_idempotent_iff sample_world 1%positive sample_frame).
  - reflexivity.
  - apply columns_present. vm_compute. reflexivity.
Defined.

(** ** Metrics *)

Lemma emit_run (e : event) (w : world) :
  emit e w = (Ok (), World (heap w) (disk w) (np_random w) (trace w ++ [e])).
Proof. done. Qed.

Lemma round_one : round_ndigits 1 3 = 1.
Proof. apply (bool_decide_unpack _). vm_compute. reflexivity. Qed.

(** An eightieth is stored as a float64 a little above 0.0125, and so is
    printed as 0.013; an eighth is stored exactly, and the half goes to the
    even digit. *)
Example round_ndigits_of_float64 :
  float64 (Q2Qc (1 # 80)) = Q2Qc (7205759403792794 # 576460752303423488) ∧
  round_ndigits (Q2Qc (1 # 80)) 3 = Q2Qc (13 # 1000) ∧
  round_ndigits (Q2Qc (1 # 8)) 2 = Q2Qc (12 # 100) ∧
  round_ndigits (Q2Qc (2 # 3)) 3 = Q2Qc (667 # 1000).
Proof. repeat split; apply (bool_decide_unpack _); vm_compute; reflexivity. Qed.

(** C4.  The metrics step never raises: it prints one table.  When no
    sample is predicted positive (the denominator of precision is zero) the
    table shows a precision of 1, and when no sample is labelled positive
    (the denominator of recall is zero) it shows a recall of 1. *)
Theorem results_zero_division
    (accuracy_score mean_squared_error : list Qc → list Qc → Qc)
    (y_test y_pred : list Qc) (w : world) :
  ∃ table,
    results accuracy_score mean_squared_error y_test y_pred w
    = (Ok (), World (heap w) (disk w) (np_random w) (trace w ++ [EvTable table])) ∧
    ((true_positives y_test y_pred + false_positives y_test y_pred = 0)%nat →
     dict_lookup table "Precision" = Some (fin 1)) ∧
    ((true_positives y_test y_pred + false_negatives y_test y_pred = 0)%nat →
     dict_lookup table "Recall" = Some (fin 1)).
Proof.
  eexists. split; [reflexivity|]. split.
  - intros Hden. unfold precision_score.
    rewrite decide_True by done. cbn. by rewrite round_one.
  - intros Hden. unfold recall_score.
    rewrite decide_True by done. cbn. by rewrite round_one.
Qed.

(** The case the spec names: every prediction is 0 and one label is 1.
    Precision has a zero denominator and is 1; recall has not, and is 0. *)
Example all_negative_predictions :
  precision_score [1; 0; 1] [0; 0; 0] 1 = 1 ∧
  recall_score [1; 0; 1] [0; 0; 0] 1 = 0.
Proof. split; apply (bool_decide_unpack _); vm_compute; reflexivity. Qed.

(** ** The evaluation harness *)

Lemma bind_Ok_inv {A B} (m : M A) (k : A → M B) (w w' : world) (b : B) :
  (m ≫= k) w = (Ok b, w') → ∃ a w1, m w = (Ok a, w1) ∧ k a w1 = (Ok b, w').
Proof.
  unfold mbind, M_bind, bind. destruct (m w) as [[a|e] w1]; [|done].
  intros H. by exists a, w1.
Qed.

Lemma lib_bind_Ok_inv {A B} (f : lib A) (k : A → lib B) (rs rs' : RandomState)
    (b : B) :
  lib_bind f k rs = (Ok b, rs') →
  ∃ a rs1, f rs = (Ok a, rs1) ∧ k a rs1 = (Ok b, rs').
Proof.
  unfold lib_bind. destruct (f rs) as [[a|e] rs1]; [|done].
  intros H. by exists a, rs1.
Qed.

Lemma lib_call_run {A} (f : lib A) (w : world) (r : result A)
    (rs : RandomState) :
  f (np_random w) = (r, rs) →
  lib_call f w = (r, World (heap w) (disk w) rs (trace w)).
Proof. intros H. unfold lib_call. by rewrite H. Qed.

Lemma table_count_app (l1 l2 : list event) :
  table_count (l1 ++ l2) = (table_count l1 + table_count l2)%nat.
Proof. unfold table_count. by rewrite List.filter_app, length_app. Qed.

Section HarnessProofs.

Variable RandomState_seed : Z → RandomState.
Variable shuffle_split : nat → Qc → lib (list nat * list nat).
Variable cross_val_score :
  Pipeline → DataFrame → list Qc → nat → lib (list Qc).
Variable fit_predict :
  Pipeline → DataFrame → list Qc → DataFrame → lib (list Qc).
Variable accuracy_score : list Qc → list Qc → Qc.
Variable mean_squared_error : list Qc → list Qc → Qc.

(** The table a pipeline prints for its predictions. *)
Let table_of (sp : split) (y_pred : list Qc) : list (string * npfloat) :=
  [("Precision", fin (round_ndigits (precision_score (y_test sp) y_pred 1) 3));
   ("Recall", fin (round_ndigits (recall_score (y_test sp) y_pred 1) 3));
   ("Accuracy", fin (round_ndigits (accuracy_score (y_test sp) y_pred) 3));
   ("Mean Squared Error",
    fin (round_ndigits (mean_squared_error (y_test sp) y_pred) 3))].

(** A pipeline whose two library calls return: three events, and the
    accuracy of the predictions. *)
Lemma run_pipeline_run (pipeline : Pipeline) (sp : split)
    (rs rs' : RandomState) (y_pred : list Qc) :
  library_pipeline cross_val_score fit_predict pipeline sp rs
  = (Ok y_pred, rs') →
  ∃ cv_mean, ∀ title h d t,
    run_pipeline cross_val_score fit_predict accuracy_score mean_squared_error
      pipeline title sp (World h d rs t)
    = (Ok (accuracy_score (y_test sp) y_pred),
       World h d rs'
         (t ++ [EvPrint title; EvPrintValue "Mean CV accuracy:" cv_mean;
                EvTable (table_of sp y_pred)])).
Proof.
  intros Hlib. apply lib_bind_Ok_inv in Hlib as (cv & rs1 & Hcv & Hfit).
  exists (float_round (np_mean cv) 3). intros title h d t.
  unfold run_pipeline, evaluate_model, results, print_results.
  erewrite bind_run by (by apply lib_call_run).
  do 2 (erewrite bind_run by apply emit_run).
  erewrite bind_run by (by apply lib_call_run).
  erewrite bind_run by apply emit_run.
  cbn [heap disk np_random trace]. by rewrite <- !app_assoc.
Qed.

Lemma train_test_split_global (X : DataFrame) (y : list Qc) (test_size : Qc)
    (w : world) (idx : list nat * list nat) (rs' : RandomState) :
  shuffle_split (length y) test_size (np_random w) = (Ok idx, rs') →
  train_test_split RandomState_seed shuffle_split X y test_size None w
  = (Ok (split_of X y idx), World (heap w) (disk w) rs' (trace w)).
Proof.
  intros H. unfold train_test_split. rewrite H. by destruct idx.
Qed.

(** The traces a run starts from and arrives at. *)
Let traces (kn lr svm xgb : list Qc) : list (string * list Qc) :=
  [("KNeighbors", kn); ("Logistic Regression", lr); ("SVM", svm);
   ("XGBoost", xgb)].

Let accuracy_of (pred : round → list Qc) (r : round) : Qc :=
  accuracy_score (y_test (round_split r)) (pred r).

(** One turn of the loop, when its library calls return: each trace gets
    the accuracy of its own model's predictions, and four tables are
    printed. *)
Lemma iteration_run (X : DataFrame) (y : list Qc) (kn lr svm xgb : list Qc)
    (w : world) (idx : list nat * list nat) (r : round)
    (rs0 rs1 : RandomState) :
  shuffle_split (length y) q_0_2 (np_random w) = (Ok idx, rs0) →
  library_round_on cross_val_score fit_predict (split_of X y idx) rs0
  = (Ok r, rs1) →
  ∃ events,
    iteration RandomState_seed shuffle_split cross_val_score fit_predict
      accuracy_score mean_squared_error X y (traces kn lr svm xgb) w
    = (Ok (traces (kn ++ [accuracy_of kn_pred r]) (lr ++ [accuracy_of lr_pred r])
                  (svm ++ [accuracy_of svm_pred r])
                  (xgb ++ [accuracy_of xgb_pred r])),
       World (heap w) (disk w) rs1 (trace w ++ events)) ∧
    table_count events = 4%nat.
Proof.
  intros Hsplit Hround. unfold library_round_on in Hround.
  apply lib_bind_Ok_inv in Hround as (p1 & r1 & H1 & Hround).
  apply lib_bind_Ok_inv in Hround as (p2 & r2 & H2 & Hround).
  apply lib_bind_Ok_inv in Hround as (p3 & r3 & H3 & Hround).
  apply lib_bind_Ok_inv in Hround as (p4 & r4 & H4 & Hround).
  injection Hround as <- <-.
  unfold iteration.
  erewrite bind_run by (by apply train_test_split_global).
  unfold KN_pipeline, LR_pipeline, SVM_pipeline, XGBoost_pipeline.
  destruct (run_pipeline_run _ _ _ _ _ H1) as [cv1 Hr1].
  erewrite bind_run by apply Hr1. clear Hr1.
  destruct (run_pipeline_run _ _ _ _ _ H2) as [cv2 Hr2].
  erewrite bind_run by apply Hr2. clear Hr2.
  destruct (run_pipeline_run _ _ _ _ _ H3) as [cv3 Hr3].
  erewrite bind_run by apply Hr3. clear Hr3.
  destruct (run_pipeline_run _ _ _ _ _ H4) as [cv4 Hr4].
  erewrite bind_run by apply Hr4. clear Hr4.
  eexists. split.
  - cbn [heap disk np_random trace]. rewrite <- !app_assoc. reflexivity.
  - reflexivity.
Qed.

(** The loop, when the library calls of its rounds return. *)
Lemma for_range_run (X : DataFrame) (y : list Qc) (num : nat)
    (kn lr svm xgb : list Qc) (w : world) (rounds : list round)
    (rs' : RandomState) :
  library_rounds shuffle_split cross_val_score fit_predict X y num
    (np_random w) = (Ok rounds, rs') →
  length rounds = num ∧
  ∃ events,
    for_range num
      (iteration RandomState_seed shuffle_split cross_val_score fit_predict
         accuracy_score mean_squared_error X y) (traces kn lr svm xgb) w
    = (Ok (traces (kn ++ (accuracy_of kn_pred <$> rounds))
                  (lr ++ (accuracy_of lr_pred <$> rounds))
                  (svm ++ (accuracy_of svm_pred <$> rounds))
                  (xgb ++ (accuracy_of xgb_pred <$> rounds))),
       World (heap w) (disk w) rs' (trace w ++ events)) ∧
    table_count events = (4 * num)%nat.
Proof.
  revert kn lr svm xgb w rounds.
  induction num as [|num IH]; intros kn lr svm xgb w rounds Hlib.
  - injection Hlib as <- <-. split; [done|]. exists [].
    split; [|done]. cbn. rewrite !app_nil_r. by destruct w.
  - cbn [library_rounds] in Hlib.
    apply lib_bind_Ok_inv in Hlib as (idx & rs0 & Hsplit & Hlib).
    apply lib_bind_Ok_inv in Hlib as (r & rs1 & Hround & Hlib).
    apply lib_bind_Ok_inv in Hlib as (rest & rs2 & Hrest & Hlib).
    injection Hlib as <- <-.
    destruct (iteration_run X y kn lr svm xgb w idx r rs0 rs1 Hsplit Hround)
      as (e1 & Hiter & Hc1).
    edestruct (IH (kn ++ [accuracy_of kn_pred r]) (lr ++ [accuracy_of lr_pred r])
                  (svm ++ [accuracy_of svm_pred r])
                  (xgb ++ [accuracy_of xgb_pred r])
                  (World (heap w) (disk w) rs1 (trace w ++ e1)) rest)
      as (Hlen & e2 & Hfor & Hc2); [exact Hrest|].
    split; [cbn; by rewrite Hlen|]. exists (e1 ++ e2). split.
    + cbn [for_range]. erewrite bind_run by exact Hiter. rewrite Hfor.
      cbn [heap disk np_random trace fmap list_fmap].
      by rewrite <- !app_assoc.
    + rewrite table_count_app. lia.
Qed.

End HarnessProofs.
(** ** The reporter *)

Lemma for_each_ok {A} (body : A → M unit) (l : list A) (w : world) :
  (∀ x w, x ∈ l → ∃ w', body x w = (Ok (), w')) →
  ∃ w', for_each l body w = (Ok (), w').
Proof.
  revert w. induction l as [|x l IH]; intros w Hbody.
  - by eexists.
  - destruct (Hbody x w) as [w1 H1]; [apply list_elem_of_here|].
    destruct (IH w1) as [w2 H2].
    { intros x' w' Hin. apply Hbody. by apply list_elem_of_further. }
    exists w2. cbn [for_each]. by erewrite bind_run by exact H1.
Qed.

Lemma sorted_nonempty (l : list Qc) : l ≠ [] → merge_sort Qcle l ≠ [].
Proof.
  intros Hl Hs. pose proof (merge_sort_Permutation Qcle l) as Hp.
  rewrite Hs in Hp. by apply Permutation_nil_l in Hp.
Qed.

Lemma plot_model_ok (mean_accuracies : list (string * npfloat))
    (model : string) (acc_list : list Qc) (w : world) :
  acc_list ≠ [] →
  is_Some (dict_lookup mean_accuracies model) →
  ∃ w', plot_model mean_accuracies (model, acc_list) w = (Ok (), w').
Proof.
  intros Hne [mean Hmean]. unfold plot_model, dict_getitem. rewrite Hmean.
  pose proof (sorted_nonempty acc_list Hne) as Hs.
  destruct (merge_sort Qcle acc_list) as [|lo rest] eqn:Hsort; [done|].
  unfold last_item. rewrite last_cons.
  destruct (last rest); by eexists.
Qed.

Lemma plot_model_empty (mean_accuracies : list (string * npfloat))
    (model : string) (w : world) :
  plot_model mean_accuracies (model, []) w = (Raise IndexError, w).
Proof. done. Qed.

Lemma plot_performance_ok (accuracies : list (string * list Qc)) (n : nat)
    (w : world) :
  traces_of (S n) accuracies →
  ∃ w', plot_performance accuracies
          ((λ item, (item.1, np_mean item.2)) <$> accuracies) w = (Ok (), w') ∧
        last (trace w') = Some EvShow.
Proof.
  intros (kn & lr & svm & xgb & -> & Hkn & Hlr & Hsvm & Hxgb).
  unfold plot_performance.
  erewrite bind_run by apply emit_run.
  edestruct (for_each_ok (plot_model
    ((λ item : string * list Qc, (item.1, np_mean item.2)) <$>
       [("KNeighbors", kn); ("Logistic Regression", lr); ("SVM", svm);
        ("XGBoost", xgb)]))) as [w1 H1]; cycle 1.
  - erewrite bind_run by exact H1.
    do 5 (erewrite bind_run by apply emit_run).
    eexists. split; [apply emit_run|]. cbn [trace]. apply last_snoc.
  - intros [model acc_list] w' Hin.
    assert (acc_list ≠ [] ∧ model ∈ model_names) as [Hne Hmodel].
    { repeat (apply elem_of_cons in Hin as [[= -> ->]|Hin]);
        [| | | |by apply elem_of_nil in Hin];
        (split; [by intros ->|]); unfold model_names; set_solver. }
    apply plot_model_ok; [done|].
    unfold model_names in Hmodel.
    repeat (apply elem_of_cons in Hmodel as [->|Hmodel]);
      [| | | |by apply elem_of_nil in Hmodel]; by eexists.
Qed.


(** ** The iterative and the single run *)





Lemma append_four (kn lr svm xgb : list Qc) (a1 a2 a3 a4 : Qc) (w : world) :
  (accuracies ← dict_append
                  [("KNeighbors", kn); ("Logistic Regression", lr);
                   ("SVM", svm); ("XGBoost", xgb)] "KNeighbors" a1;
   accuracies ← dict_append accuracies "Logistic Regression" a2;
   accuracies ← dict_append accuracies "SVM" a3;
   dict_append accuracies "XGBoost" a4) w
  = (Ok [("KNeighbors", kn ++ [a1]); ("Logistic Regression", lr ++ [a2]);
         ("SVM", svm ++ [a3]); ("XGBoost", xgb ++ [a4])], w).
Proof. reflexivity. Qed.

Section HarnessInversion.

Variable RandomState_seed : Z → RandomState.
Variable shuffle_split : nat → Qc → lib (list nat * list nat).
Variable cross_val_score :
  Pipeline → DataFrame → list Qc → nat → lib (list Qc).
Variable fit_predict :
  Pipeline → DataFrame → list Qc → DataFrame → lib (list Qc).
Variable accuracy_score : list Qc → list Qc → Qc.
Variable mean_squared_error : list Qc → list Qc → Qc.

(** A turn of the loop that returns has added one entry to each trace. *)
Lemma iteration_Ok_traces (X : DataFrame) (y : list Qc) (n : nat)
    (accuracies accuracies' : list (string * list Qc)) (w w' : world) :
  traces_of n accuracies →
  iteration RandomState_seed shuffle_split cross_val_score fit_predict
    accuracy_score mean_squared_error X y accuracies w
  = (Ok accuracies', w') →
  traces_of (S n) accuracies'.
Proof.
  intros (kn & lr & svm & xgb & -> & Hkn & Hlr & Hsvm & Hxgb) H.
  unfold iteration in H.
  apply bind_Ok_inv in H as (sp & w0 & _ & H).
  apply bind_Ok_inv in H as (a1 & w1 & _ & H).
  apply bind_Ok_inv in H as (a2 & w2 & _ & H).
  apply bind_Ok_inv in H as (a3 & w3 & _ & H).
  apply bind_Ok_inv in H as (a4 & w4 & _ & H).
  rewrite append_four in H. injection H as <- <-.
  eexists _, _, _, _. split; [reflexivity|].
  rewrite !length_app. simpl. lia.
Qed.

Lemma for_range_Ok_traces (X : DataFrame) (y : list Qc) (num n : nat)
    (accuracies accuracies' : list (string * list Qc)) (w w' : world) :
  traces_of n accuracies →
  for_range num
    (iteration RandomState_seed shuffle_split cross_val_score fit_predict
       accuracy_score mean_squared_error X y) accuracies w
  = (Ok accuracies', w') →
  traces_of (n + num) accuracies'.
Proof.
  revert n accuracies w. induction num as [|num IH]; intros n accuracies w Ht H.
  - injection H as <- <-. by rewrite Nat.add_0_r.
  - cbn [for_range] in H. apply bind_Ok_inv in H as (acc1 & w1 & H1 & H).
    replace (n + S num)%nat with (S n + num)%nat by lia.
    eapply IH; [|exact H]. by eapply iteration_Ok_traces.
Qed.

End HarnessInversion.

(** C8.  With no iteration every trace is empty and the reporter raises
    [IndexError] at the first model, after opening the figure and before
    anything is drawn.  With at least one iteration the reporter does not
    fail: if the loop returns, the run ends normally and the figure is
    shown; if a library call raises in the loop, the run ends with that
    exception. *)
Theorem evaluate_models_iteratively_needs_iteration
    (RandomState_seed : Z → RandomState)
    (shuffle_split : nat → Qc → lib (list nat * list nat))
    (cross_val_score : Pipeline → DataFrame → list Qc → nat → lib (list Qc))
    (fit_predict : Pipeline → DataFrame → list Qc → DataFrame → lib (list Qc))
    (accuracy_score mean_squared_error : list Qc → list Qc → Qc)
    (X : DataFrame) (y : list Qc) (num : nat) (w : world) :
  match num with
  | O =>
      (collect_accuracies RandomState_seed shuffle_split cross_val_score
         fit_predict accuracy_score mean_squared_error X y 0 w).1
      = Ok ([("KNeighbors", []); ("Logistic Regression", []); ("SVM", []);
             ("XGBoost", [])],
            [("KNeighbors", nan); ("Logistic Regression", nan); ("SVM", nan);
             ("XGBoost", nan)]) ∧
      evaluate_models_iteratively RandomState_seed shuffle_split
        cross_val_score fit_predict accuracy_score mean_squared_error X y 0 w
      = (Raise IndexError,
         World (heap w) (disk w) (np_random w) (trace w ++ [EvFigure]))
  | S _ =>
      match collect_accuracies RandomState_seed shuffle_split cross_val_score
              fit_predict accuracy_score mean_squared_error X y num w with
      | (Ok _, _) =>
          ∃ w',
            evaluate_models_iteratively RandomState_seed shuffle_split
              cross_val_score fit_predict accuracy_score mean_squared_error
              X y num w
            = (Ok (), w') ∧
            last (trace w') = Some EvShow
      | (Raise e, w1) =>
          evaluate_models_iteratively RandomState_seed shuffle_split
            cross_val_score fit_predict accuracy_score mean_squared_error
            X y num w
          = (Raise e, w1)
      end
  end.
Proof.
  destruct num as [|n]; [done|].
  destruct (collect_accuracies _ _ _ _ _ _ _ _ _ _) as [[[accs means]|e] w1]
    eqn:Hcollect.
  - unfold collect_accuracies in Hcollect.
    apply bind_Ok_inv in Hcollect as (accs' & w2 & Hrun & Hret).
    injection Hret as <- <- <-.
    assert (Htr : traces_of (S n) accs').
    { eapply (for_range_Ok_traces _ _ _ _ _ _ _ _ (S n) 0); [|exact Hrun].
      by eexists [], [], [], []. }
    destruct (plot_performance_ok accs' n w2 Htr) as (w' & Hplot & Hlast).
    exists w'. split; [|done].
    unfold evaluate_models_iteratively.
    erewrite bind_run; cycle 1.
    { unfold collect_accuracies. erewrite bind_run by exact Hrun. reflexivity. }
    exact Hplot.
  - unfold evaluate_models_iteratively. by erewrite bind_raise by exact Hcollect.
Qed.

(** With library calls that return, one iteration is enough for the run to
    end with the figure shown. *)
Example one_iteration_shows_figure :
  (evaluate_models_iteratively const_seed const_shuffle_split
     const_cross_val_score const_fit_predict const_score const_score
     sample_frame sample_labels 1
     sample_world).1 = Ok () ∧
  last (trace
          (evaluate_models_iteratively const_seed const_shuffle_split
             const_cross_val_score const_fit_predict const_score const_score
             sample_frame sample_labels 1
             sample_world).2) = Some EvShow.
Proof. split; vm_compute; reflexivity. Qed.

(** C6.  The partition of the single run is a function of [(X, y)] alone:
    it is drawn with test share 1/5 from a generator seeded with 42, never
    from the global generator, so every execution on the same input, in
    whatever state of the world, gets the same answer from the split, and
    when that is a split it runs the four pipelines on the same train and
    test rows. *)
Theorem evaluate_models_once_same_partition
    (RandomState_seed : Z → RandomState)
    (shuffle_split : nat → Qc → lib (list nat * list nat))
    (cross_val_score : Pipeline → DataFrame → list Qc → nat → lib (list Qc))
    (fit_predict : Pipeline → DataFrame → list Qc → DataFrame → lib (list Qc))
    (accuracy_score mean_squared_error : list Qc → list Qc → Qc)
    (X : DataFrame) (y : list Qc) :
  ∃ r : result split,
    r = match (shuffle_split (length y) (Q2Qc (1 # 5))
                 (RandomState_seed 42%Z)).1 with
        | Ok (train, test) =>
            Ok (Split (take_rows X train) (take_rows X test)
                      (take_items y train) (take_items y test))
        | Raise e => Raise e
        end ∧
    ∀ w,
      train_test_split RandomState_seed shuffle_split X y q_0_2 (Some 42%Z) w
      = (r, w) ∧
      evaluate_models_once RandomState_seed shuffle_split cross_val_score
        fit_predict accuracy_score mean_squared_error X y w
      = match r with
        | Ok sp =>
            (KN_pipeline cross_val_score fit_predict accuracy_score
               mean_squared_error sp;;
             LR_pipeline cross_val_score fit_predict accuracy_score
               mean_squared_error sp;;
             SVM_pipeline cross_val_score fit_predict accuracy_score
               mean_squared_error sp;;
             XGBoost_pipeline cross_val_score fit_predict accuracy_score
               mean_squared_error sp;;
             mret ()) w
        | Raise e => (Raise e, w)
        end.
Proof.
  eexists. split; [reflexivity|]. intros w.
  assert (Hsplit : ∀ w,
    train_test_split RandomState_seed shuffle_split X y q_0_2 (Some 42%Z) w
    = (match (shuffle_split (length y) (Q2Qc (1 # 5))
                (RandomState_seed 42%Z)).1 with
       | Ok (train, test) =>
           Ok (Split (take_rows X train) (take_rows X test)
                     (take_items y train) (take_items y test))
       | Raise e => Raise e
       end, w)).
  { intros w0. unfold train_test_split, q_0_2.
    by destruct (shuffle_split _ _ _) as [[[train test]|e] rs]. }
  split; [apply Hsplit|].
  unfold evaluate_models_once, mbind at 1, M_bind at 1, bind at 1.
  rewrite Hsplit.
  by destruct (shuffle_split _ _ _) as [[[train test]|e] rs].
Qed.

(** ** Start-up *)

Lemma read_csv_missing (path : string) (w : world) :
  disk w !! path = None → read_csv path w = (Raise FileNotFoundError, w).
Proof. intros H. unfold read_csv. by rewrite H. Qed.

Lemma read_csv_found (path : string) (f : csv_file) (w : world) :
  disk w !! path = Some f →
  read_csv path w
  = (if csv_parses f then Ok f else Raise ParserError, w).
Proof. intros H. unfold read_csv. rewrite H. by destruct (csv_parses f). Qed.

(** A later row with a field too many stops the parser; a first row with a
    field too many gives every row an index field, which [dropna] drops
    with the index; a short row is dropped for its missing fields. *)
Example read_csv_ragged :
  csv_parses (CsvFile ["a"; "b"]
                [(λ z, Some (Qc_of_Z z)) <$> [1; 2]%Z;
                 (λ z, Some (Qc_of_Z z)) <$> [3; 4; 5]%Z]) = false ∧
  csv_parses (CsvFile ["a"; "b"]
                [(λ z, Some (Qc_of_Z z)) <$> [1; 2; 3]%Z;
                 (λ z, Some (Qc_of_Z z)) <$> [4; 5]%Z]) = true ∧
  dropna (CsvFile ["a"; "b"]
            [(λ z, Some (Qc_of_Z z)) <$> [1; 2; 3]%Z;
             (λ z, Some (Qc_of_Z z)) <$> [4; 5]%Z;
             (λ z, Some (Qc_of_Z z)) <$> [6; 7; 8]%Z])
  = {["a" := Qc_of_Z <$> [2; 7]%Z; "b" := Qc_of_Z <$> [3; 8]%Z]}.
Proof.
  split; [reflexivity|]. split; [reflexivity|].
  apply (bool_decide_unpack _). vm_compute. reflexivity.
Qed.

(** The file is there and parses: it is read, and the collaborator is not
    called. *)
Lemma load_input_present
    (fetch_data : gmap string csv_file → gmap string csv_file)
    (raw : csv_file) (w : world) :
  disk w !! csv_path = Some raw → csv_parses raw = true →
  load_input fetch_data w = (Ok raw, w).
Proof.
  intros H Hp. unfold load_input, try_except.
  by rewrite (read_csv_found _ raw), Hp.
Qed.

(** C5.  When the input file is missing at start-up, the acquisition
    collaborator is called once and the file is read again.  If it is there
    now, the run goes on with it (or ends with the parser's error when the
    file does not parse); if it is still missing, [main] prints the error
    message and ends with [SystemExit 1], so the exit status is 1: the
    collaborator was called that once only. *)
Theorem main_missing_input
    (RandomState_seed : Z → RandomState)
    (shuffle_split : nat → Qc → lib (list nat * list nat))
    (cross_val_score : Pipeline → DataFrame → list Qc → nat → lib (list Qc))
    (fit_predict : Pipeline → DataFrame → list Qc → DataFrame → lib (list Qc))
    (accuracy_score mean_squared_error : list Qc → list Qc → Qc)
    (fetch_data : gmap string csv_file → gmap string csv_file)
    (w : world) :
  disk w !! csv_path = None →
  match fetch_data (disk w) !! csv_path with
  | Some raw =>
      main RandomState_seed shuffle_split cross_val_score fit_predict
        accuracy_score mean_squared_error fetch_data w
      = if csv_parses raw
        then analyse RandomState_seed shuffle_split cross_val_score
               fit_predict accuracy_score mean_squared_error raw
               (World (heap w) (fetch_data (disk w)) (np_random w)
                  (trace w ++ [EvFetch]))
        else (Raise ParserError,
              World (heap w) (fetch_data (disk w)) (np_random w)
                (trace w ++ [EvFetch]))
  | None =>
      main RandomState_seed shuffle_split cross_val_score fit_predict
        accuracy_score mean_squared_error fetch_data w
      = (Raise (SystemExit 1),
         World (heap w) (fetch_data (disk w)) (np_random w)
           (trace w ++ [EvFetch;
                        EvPrint "Error fetching data. Please try again."])) ∧
      exit_status
        (main RandomState_seed shuffle_split cross_val_score fit_predict
           accuracy_score mean_squared_error fetch_data w).1 = 1%Z
  end.
Proof.
  intros Hmiss.
  assert (Hload :
    load_input fetch_data w
    = match fetch_data (disk w) !! csv_path with
      | Some raw =>
          (if csv_parses raw then Ok raw else Raise ParserError,
           World (heap w) (fetch_data (disk w)) (np_random w)
             (trace w ++ [EvFetch]))
      | None =>
          (Raise (SystemExit 1),
           World (heap w) (fetch_data (disk w)) (np_random w)
             (trace w ++ [EvFetch;
                          EvPrint "Error fetching data. Please try again."]))
      end).
  { unfold load_input, try_except at 1. rewrite read_csv_missing by done.
    cbn [is_FileNotFoundError]. unfold call_fetch_data.
    erewrite bind_run; cycle 1.
    { erewrite bind_run by apply emit_run. reflexivity. }
    unfold try_except, read_csv. cbn [disk].
    destruct (fetch_data (disk w) !! csv_path) as [raw|].
    { by destruct (csv_parses raw). }
    cbn [is_FileNotFoundError].
    erewrite bind_run by apply emit_run.
    unfold exit, raise. cbn [heap disk np_random trace].
    by rewrite <- app_assoc. }
  unfold main.
  destruct (fetch_data (disk w) !! csv_path) as [raw|].
  - destruct (csv_parses raw).
    + by erewrite bind_run by exact Hload.
    + by erewrite bind_raise by exact Hload.
  - by erewrite bind_raise by exact Hload.
Qed.

Lemma main_missing_input_witness :
  main const_seed const_shuffle_split const_cross_val_score const_fit_predict
    const_score const_score fetch_nothing sample_world
  = (Raise (SystemExit 1),
     World (heap sample_world) (disk sample_world) (np_random sample_world)
       [EvFetch; EvPrint "Error fetching data. Please try again."]) ∧
  exit_status
    (main const_seed const_shuffle_split const_cross_val_score
       const_fit_predict const_score const_score fetch_nothing sample_world).1
  = 1%Z.
Proof.
  apply (main_missing_input const_seed const_shuffle_split
           const_cross_val_score const_fit_predict const_score const_score
           fetch_nothing sample_world).
  reflexivity.
Defined.
(** * Further properties of the cleaning steps *)

Lemma process_target_run (w : world) (df : loc) (d : DataFrame)
    (num : list Qc) :
  heap w !! df = Some d → d !! "num" = Some num →
  process_target df w
  = (Ok df, with_heap w
              (<[df := delete "num" (<["target" := binarize <$> num]> d)]>
                 (heap w))).
Proof.
  intros Hd Hnum. unfold process_target.
  erewrite bind_run by (by eapply getitem_run).
  erewrite bind_run by (by eapply setitem_run).
  erewrite bind_run; cycle 1.
  { eapply drop_inplace_run; [apply lookup_insert_eq|].
    rewrite lookup_insert_ne by done. exact Hnum. }
  by rewrite with_heap_with_heap, heap_with_heap, insert_insert_eq.
Qed.

Lemma process_target_missing_num_run (w : world) (df : loc) (d : DataFrame) :
  heap w !! df = Some d → d !! "num" = None →
  process_target df w = (Raise (KeyError "num"), w).
Proof.
  intros Hd Hnum. unfold process_target.
  erewrite bind_raise; [reflexivity|].
  unfold getitem, load, mbind, M_bind, bind. by rewrite Hd, Hnum.
Qed.

(** X1.  Without a [num] column the target encoder raises [KeyError] for
    [num] before it has written anything: the world is as it was. *)
Theorem process_target_missing_num (w : world) (df : loc) (d : DataFrame) :
  heap w !! df = Some d →
  d !! "num" = None →
  process_target df w = (Raise (KeyError "num"), w).
Proof.
  intros Hd Hnum. by eapply process_target_missing_num_run.
Qed.

Lemma process_target_missing_num_witness :
  process_target 1%positive skewed_world
  = (Raise (KeyError "num"), skewed_world).
Proof.
  apply (process_target_missing_num skewed_world 1%positive skewed_frame);
    reflexivity.
Defined.

(** X2.  The target encoder touches two columns of one object: every column
    other than [num] and [target] is as before, a [target] column that was
    already there is replaced, and the other objects of the store, the
    files, the generator and the output are unchanged. *)
Theorem process_target_frame (w : world) (df : loc) (d : DataFrame)
    (num : list Qc) :
  heap w !! df = Some d →
  d !! "num" = Some num →
  ∃ w' d',
    process_target df w = (Ok df, w') ∧
    heap w' !! df = Some d' ∧
    dom d' = ({["target"]} ∪ dom d) ∖ {["num"]} ∧
    (∀ col, col ≠ "num" → col ≠ "target" → d' !! col = d !! col) ∧
    (∀ l, l ≠ df → heap w' !! l = heap w !! l) ∧
    disk w' = disk w ∧ np_random w' = np_random w ∧ trace w' = trace w.
Proof.
  intros Hd Hnum. eexists _, _.
  split; [by apply process_target_run|]. split; [apply lookup_insert_eq|].
  split; [by rewrite dom_delete_L, dom_insert_L|]. split.
  - intros col H1 H2. by rewrite lookup_delete_ne, lookup_insert_ne.
  - split; [|done]. intros l Hl. by apply lookup_insert_ne.
Qed.

Lemma process_target_frame_witness :
  ∃ w' d',
    process_target 1%positive sample_world = (Ok 1%positive, w') ∧
    heap w' !! 1%positive = Some d' ∧
    dom d' = ({["target"]} ∪ dom sample_frame) ∖ {["num"]} ∧
    (∀ col, col ≠ "num" → col ≠ "target" → d' !! col = sample_frame !! col) ∧
    (∀ l, l ≠ 1%positive → heap w' !! l = heap sample_world !! l) ∧
    disk w' = disk sample_world ∧ np_random w' = np_random sample_world ∧
    trace w' = trace sample_world.
Proof.
  apply (process_target_frame sample_world 1%positive sample_frame
           (Qc_of_Z <$> [0; 2; 1; 0; 3; 0; 0; 1; 0; 0]%Z)).
  - reflexivity.
  - apply (bool_decide_unpack _). vm_compute. reflexivity.
Defined.

Lemma clip_frame_encoded (d : DataFrame) (target : list Qc) :
  clip_frame (delete "num" (<["target" := target]> d))
  = delete "num" (<["target" := target]> (clip_frame d)).
Proof.
  apply map_eq. intros col. rewrite clip_frame_lookup.
  destruct (decide (col = "num")) as [->|Hnum].
  { rewrite !lookup_delete_eq. by case_decide. }
  rewrite !lookup_delete_ne by done.
  destruct (decide (col = "target")) as [->|Htarget].
  { rewrite !lookup_insert_eq. rewrite decide_False; [done|].
    apply (bool_decide_unpack _). by vm_compute. }
  rewrite !lookup_insert_ne by done. by rewrite clip_frame_lookup.
Qed.

(** X3.  The two cleaning steps work on different columns, so their order
    does not matter: encoding the target and then clipping leaves the same
    world as clipping and then encoding. *)
Theorem cleaning_steps_commute (w : world) (df : loc) (d : DataFrame) :
  heap w !! df = Some d →
  is_Some (d !! "num") →
  (∀ col, col ∈ bounded_columns → is_Some (d !! col)) →
  (process_target df ≫= handle_outliers) w
  = (handle_outliers df ≫= process_target) w.
Proof.
  intros Hd [num Hnum] Hcols.
  erewrite bind_run by (by eapply process_target_run).
  erewrite handle_outliers_run; cycle 1.
  { apply lookup_insert_eq. }
  { intros col Hin. rewrite lookup_delete_ne, lookup_insert_ne.
    - by apply Hcols.
    - intros <-. revert Hin. apply (bool_decide_unpack _). by vm_compute.
    - intros <-. revert Hin. apply (bool_decide_unpack _). by vm_compute. }
  erewrite (bind_run (handle_outliers df)) by (by eapply handle_outliers_run).
  erewrite process_target_run; cycle 1.
  { apply lookup_insert_eq. }
  { rewrite clip_frame_other, Hnum; [done|].
    apply (bool_decide_unpack _). by vm_compute. }
  rewrite !with_heap_with_heap, !heap_with_heap, !insert_insert_eq.
  by rewrite clip_frame_encoded.
Qed.

Lemma cleaning_steps_commute_witness :
  (process_target 1%positive ≫= handle_outliers) sample_world
  = (handle_outliers 1%positive ≫= process_target) sample_world.
Proof.
  apply (cleaning_steps_commute sample_world 1%positive sample_frame).
  - reflexivity.
  - apply (bool_decide_unpack _). vm_compute. reflexivity.
  - apply columns_present. vm_compute. reflexivity.
Defined.

Lemma clip_column_missing (w : world) (df : loc) (d : DataFrame)
    (col : string) :
  heap w !! df = Some d → d !! col = None →
  clip_column df col w = (Raise (KeyError col), w).
Proof.
  intros Hd Hc. unfold clip_column. erewrite bind_raise; [reflexivity|].
  unfold getitem, load, mbind, M_bind, bind. by rewrite Hd, Hc.
Qed.

Lemma clip_columns_missing (pre post : list string) (col : string)
    (w : world) (df : loc) (d : DataFrame) :
  heap w !! df = Some d →
  (∀ c, c ∈ pre → is_Some (d !! c)) →
  d !! col = None →
  for_each (pre ++ col :: post) (clip_column df) w
  = (Raise (KeyError col),
     with_heap w (<[df := foldl (λ d c, alter clip_series c d) d pre]> (heap w))).
Proof.
  revert w d. induction pre as [|c pre IH]; intros w d Hd Hpre Hcol; simpl.
  - erewrite bind_raise by (by eapply clip_column_missing).
    by rewrite insert_id, with_heap_id.
  - destruct (Hpre c) as [v Hv]; [apply list_elem_of_here|].
    erewrite bind_run by (by eapply clip_column_run).
    rewrite (IH _ (alter clip_series c d)).
    + by rewrite with_heap_with_heap, heap_with_heap, insert_insert_eq.
    + apply lookup_insert_eq.
    + intros c' Hin. apply lookup_alter_is_Some, Hpre.
      by apply list_elem_of_further.
    + by rewrite lookup_alter_None.
Qed.

(** X4.  When a bounded column is missing the clipper raises [KeyError] for
    the first missing one, and it does not undo its work: the bounded
    columns before it in the list are already clipped in the caller's
    frame, the others are as they were. *)
Theorem handle_outliers_missing_column (w : world) (df : loc) (d : DataFrame)
    (pre post : list string) (col : string) :
  heap w !! df = Some d →
  bounded_columns = pre ++ col :: post →
  (∀ c, c ∈ pre → is_Some (d !! c)) →
  d !! col = None →
  ∃ w' d',
    handle_outliers df w = (Raise (KeyError col), w') ∧
    heap w' !! df = Some d' ∧
    (∀ c, c ∈ pre → d' !! c = clip_series <$> d !! c) ∧
    (∀ c, c ∉ pre → d' !! c = d !! c).
Proof.
  intros Hd Hsplit Hpre Hcol. eexists _, _. split; [|split; [|split]].
  - unfold handle_outliers. rewrite Hsplit.
    erewrite bind_raise; [reflexivity|]. by eapply clip_columns_missing.
  - apply lookup_insert_eq.
  - intros c Hin. rewrite foldl_alter_lookup.
    + by rewrite decide_True.
    + pose proof bounded_columns_NoDup as Hnd. rewrite Hsplit in Hnd.
      by apply NoDup_app in Hnd as (? & _ & _).
  - intros c Hin. rewrite foldl_alter_lookup.
    + by rewrite decide_False.
    + pose proof bounded_columns_NoDup as Hnd. rewrite Hsplit in Hnd.
      by apply NoDup_app in Hnd as (? & _ & _).
Qed.

Lemma handle_outliers_missing_column_witness :
  ∃ w' d',
    handle_outliers 1%positive
      (World {[1%positive := delete "chol" sample_frame]} ∅ 0%Z [])
    = (Raise (KeyError "chol"), w') ∧
    heap w' !! 1%positive = Some d' ∧
    (∀ c, c ∈ ["age"; "trestbps"] →
          d' !! c = clip_series <$> delete "chol" sample_frame !! c) ∧
    (∀ c, c ∉ ["age"; "trestbps"] → d' !! c = delete "chol" sample_frame !! c).
Proof.
  apply (handle_outliers_missing_column
           (World {[1%positive := delete "chol" sample_frame]} ∅ 0%Z [])
           1%positive (delete "chol" sample_frame)
           ["age"; "trestbps"] ["thalach"; "oldpeak"] "chol").
  - reflexivity.
  - reflexivity.
  - apply columns_present. vm_compute. reflexivity.
  - apply (bool_decide_unpack _). vm_compute. reflexivity.
Defined.

Lemma clip_cases (lo hi v : Qc) :
  lo ≤ hi →
  clip (fin lo) (fin hi) v
  = if bool_decide (v < lo) then lo else if bool_decide (hi < v) then hi else v.
Proof.
  intros Hle. unfold clip. destruct (bool_decide_reflect (v < lo)); [|done].
  rewrite bool_decide_false; [done|]. by apply Qcle_not_lt.
Qed.

Lemma clip_monotone (lo hi : npfloat) (u v : Qc) :
  u ≤ v → clip lo hi u ≤ clip lo hi v.
Proof.
  intros Huv. destruct lo as [|a], hi as [|b]; try done. unfold clip.
  repeat case_bool_decide;
    repeat match goal with
           | H : ¬ (_ < _) |- _ => apply Qcnot_lt_le in H
           | H : _ < _ |- _ => apply Qclt_le_weak in H
           end;
    try apply Qcle_refl; try done; eauto using Qcle_trans.
Qed.

Lemma fences_bracket (c : list Qc) (q1 q3 : Qc) :
  Q1 c = fin q1 → Q3 c = fin q3 →
  ∃ lo hi, lower_fence c = fin lo ∧ upper_fence c = fin hi ∧
           lo ≤ q1 ∧ q1 ≤ q3 ∧ q3 ≤ hi.
Proof.
  intros H1 H3. pose proof (quartiles_ordered c) as Hq.
  unfold lower_fence, upper_fence, IQR. rewrite H1, H3 in *. simpl.
  eexists _, _. split; [done|]. split; [done|].
  unfold q_1_5. clear -Hq. qc2q. repeat split; nra.
Qed.

Lemma fences_finite (c : list Qc) :
  c ≠ [] →
  ∃ lo hi, lower_fence c = fin lo ∧ upper_fence c = fin hi ∧ lo ≤ hi.
Proof.
  intros Hne. pose proof (fences_ordered c) as H.
  destruct (lower_fence c) as [|lo], (upper_fence c) as [|hi]; try done.
  by exists lo, hi.
Qed.

(** X5.  What the clipper does to one cell of a bounded column: the fences
    of the column are finite and ordered, a value below the lower fence
    becomes the lower fence, a value above the upper fence becomes the
    upper fence, and any other value is kept. *)
Theorem handle_outliers_cell (w : world) (df : loc) (d : DataFrame)
    (col : string) (c : list Qc) (i : nat) (v : Qc) :
  heap w !! df = Some d →
  (∀ col, col ∈ bounded_columns → is_Some (d !! col)) →
  col ∈ bounded_columns →
  d !! col = Some c →
  c !! i = Some v →
  ∃ w' d' c' lo hi,
    handle_outliers df w = (Ok df, w') ∧
    heap w' !! df = Some d' ∧
    d' !! col = Some c' ∧
    lower_fence c = fin lo ∧ upper_fence c = fin hi ∧ lo ≤ hi ∧
    c' !! i = Some (if bool_decide (v < lo) then lo
                    else if bool_decide (hi < v) then hi else v).
Proof.
  intros Hd Hcols Hin Hc Hv.
  destruct (fences_finite c) as (lo & hi & Hlo & Hhi & Hle).
  { intros ->. by rewrite lookup_nil in Hv. }
  exists (with_heap w (<[df := clip_frame d]> (heap w))), (clip_frame d),
    (clip_series c), lo, hi.
  split; [by apply handle_outliers_run|]. split; [apply lookup_insert_eq|].
  split; [by rewrite clip_frame_bounded, Hc|]. do 3 (split; [done|]).
  rewrite <- clip_cases by done. rewrite <- Hlo, <- Hhi.
  unfold clip_series. by rewrite list_lookup_fmap, Hv.
Qed.

Lemma handle_outliers_cell_witness :
  ∃ w' d' c' lo hi,
    handle_outliers 1%positive sample_world = (Ok 1%positive, w') ∧
    heap w' !! 1%positive = Some d' ∧
    d' !! "oldpeak" = Some c' ∧
    lower_fence (Qc_of_Z <$> [1; 2; 3; 4; 5; 6; 7; 8; 9; 1000]%Z) = fin lo ∧
    upper_fence (Qc_of_Z <$> [1; 2; 3; 4; 5; 6; 7; 8; 9; 1000]%Z) = fin hi ∧
    lo ≤ hi ∧
    c' !! 9%nat = Some (if bool_decide (Qc_of_Z 1000 < lo) then lo
                        else if bool_decide (hi < Qc_of_Z 1000) then hi
                        else Qc_of_Z 1000).
Proof.
  apply (handle_outliers_cell sample_world 1%positive sample_frame "oldpeak").
  - reflexivity.
  - apply columns_present. vm_compute. reflexivity.
  - apply (bool_decide_unpack _). vm_compute. reflexivity.
  - apply (bool_decide_unpack _). vm_compute. reflexivity.
  - reflexivity.
Defined.

(** X6.  Clipping keeps the order of the values of a column: if one row is
    at most another before the call, it is at most the other after it. *)
Theorem handle_outliers_monotone (w : world) (df : loc) (d : DataFrame)
    (col : string) (c : list Qc) (i j : nat) (u v : Qc) :
  heap w !! df = Some d →
  (∀ col, col ∈ bounded_columns → is_Some (d !! col)) →
  d !! col = Some c →
  c !! i = Some u →
  c !! j = Some v →
  u ≤ v →
  ∃ w' d' c' u' v',
    handle_outliers df w = (Ok df, w') ∧
    heap w' !! df = Some d' ∧
    d' !! col = Some c' ∧
    c' !! i = Some u' ∧ c' !! j = Some v' ∧ u' ≤ v'.
Proof.
  intros Hd Hcols Hc Hu Hv Huv.
  exists (with_heap w (<[df := clip_frame d]> (heap w))), (clip_frame d).
  destruct (decide (col ∈ bounded_columns)) as [Hin|Hin].
  - exists (clip_series c), (clip (lower_fence c) (upper_fence c) u),
      (clip (lower_fence c) (upper_fence c) v).
    split; [by apply handle_outliers_run|]. split; [apply lookup_insert_eq|].
    split; [by rewrite clip_frame_bounded, Hc|]. unfold clip_series.
    rewrite !list_lookup_fmap, Hu, Hv. do 2 (split; [done|]).
    by apply clip_monotone.
  - exists c, u, v.
    split; [by apply handle_outliers_run|]. split; [apply lookup_insert_eq|].
    split; [by rewrite clip_frame_other|]. done.
Qed.

Lemma handle_outliers_monotone_witness :
  ∃ w' d' c' u' v',
    handle_outliers 1%positive sample_world = (Ok 1%positive, w') ∧
    heap w' !! 1%positive = Some d' ∧
    d' !! "oldpeak" = Some c' ∧
    c' !! 8%nat = Some u' ∧ c' !! 9%nat = Some v' ∧ u' ≤ v'.
Proof.
  apply (handle_outliers_monotone sample_world 1%positive sample_frame
           "oldpeak" (Qc_of_Z <$> [1; 2; 3; 4; 5; 6; 7; 8; 9; 1000]%Z)
           8 9 (Qc_of_Z 9) (Qc_of_Z 1000)).
  - reflexivity.
  - apply columns_present. vm_compute. reflexivity.
  - apply (bool_decide_unpack _). vm_compute. reflexivity.
  - reflexivity.
  - reflexivity.
  - apply (bool_decide_unpack _). vm_compute. reflexivity.
Defined.

(** X7.  The clipper never changes a value that lies between the first and
    the third quartile of its column: the fences enclose the quartiles. *)
Theorem handle_outliers_keeps_interquartile (w : world) (df : loc)
    (d : DataFrame) (col : string) (c : list Qc) (i : nat) (v q1 q3 : Qc) :
  heap w !! df = Some d →
  (∀ col, col ∈ bounded_columns → is_Some (d !! col)) →
  d !! col = Some c →
  c !! i = Some v →
  Q1 c = fin q1 →
  Q3 c = fin q3 →
  q1 ≤ v →
  v ≤ q3 →
  ∃ w' d' c',
    handle_outliers df w = (Ok df, w') ∧
    heap w' !! df = Some d' ∧
    d' !! col = Some c' ∧
    c' !! i = Some v.
Proof.
  intros Hd Hcols Hc Hv H1 H3 Hq1 Hq3.
  exists (with_heap w (<[df := clip_frame d]> (heap w))), (clip_frame d).
  destruct (decide (col ∈ bounded_columns)) as [Hin|Hin].
  - exists (clip_series c).
    split; [by apply handle_outliers_run|]. split; [apply lookup_insert_eq|].
    split; [by rewrite clip_frame_bounded, Hc|]. unfold clip_series.
    rewrite list_lookup_fmap, Hv. simpl. f_equal.
    destruct (fences_bracket c q1 q3 H1 H3) as (lo & hi & -> & -> & ? & ? & ?).
    apply clip_inside. split; eauto using Qcle_trans.
  - exists c.
    split; [by apply handle_outliers_run|]. split; [apply lookup_insert_eq|].
    split; [by rewrite clip_frame_other|]. done.
Qed.

Lemma handle_outliers_keeps_interquartile_witness :
  ∃ w' d' c',
    handle_outliers 1%positive sample_world = (Ok 1%positive, w') ∧
    heap w' !! 1%positive = Some d' ∧
    d' !! "oldpeak" = Some c' ∧
    c' !! 4%nat = Some (Qc_of_Z 5).
Proof.
  apply (handle_outliers_keeps_interquartile sample_world 1%positive
           sample_frame "oldpeak"
           (Qc_of_Z <$> [1; 2; 3; 4; 5; 6; 7; 8; 9; 1000]%Z)
           4 (Qc_of_Z 5) (Q2Qc (13 # 4)) (Q2Qc (31 # 4))).
  - reflexivity.
  - apply columns_present. vm_compute. reflexivity.
  - apply (bool_decide_unpack _). vm_compute. reflexivity.
  - reflexivity.
  - apply (bool_decide_unpack _). vm_compute. reflexivity.
  - apply (bool_decide_unpack _). vm_compute. reflexivity.
  - apply (bool_decide_unpack _). vm_compute. reflexivity.
  - apply (bool_decide_unpack _). vm_compute. reflexivity.
Defined.


(** * Further properties of the harness and the reporter *)

Lemma train_test_split_seeded
    (RandomState_seed : Z → RandomState)
    (shuffle_split : nat → Qc → lib (list nat * list nat))
    (X : DataFrame) (y : list Qc) (test_size : Qc) (seed : Z) (w : world)
    (idx : list nat * list nat) (rs0 : RandomState) :
  shuffle_split (length y) test_size (RandomState_seed seed) = (Ok idx, rs0) →
  train_test_split RandomState_seed shuffle_split X y test_size (Some seed) w
  = (Ok (split_of X y idx), w).
Proof. intros H. unfold train_test_split. rewrite H. by destruct idx. Qed.



(** The single run, when its library calls return. *)
Lemma evaluate_models_once_run
    (RandomState_seed : Z → RandomState)
    (shuffle_split : nat → Qc → lib (list nat * list nat))
    (cross_val_score : Pipeline → DataFrame → list Qc → nat → lib (list Qc))
    (fit_predict : Pipeline → DataFrame → list Qc → DataFrame → lib (list Qc))
    (accuracy_score mean_squared_error : list Qc → list Qc → Qc)
    (X : DataFrame) (y : list Qc) (w : world) (r : round) (rs' : RandomState) :
  library_single_run RandomState_seed shuffle_split cross_val_score
    fit_predict X y (np_random w) = (Ok r, rs') →
  ∃ w' cv1 cv2 cv3 cv4 t1 t2 t3 t4,
    evaluate_models_once RandomState_seed shuffle_split cross_val_score
      fit_predict accuracy_score mean_squared_error X y w = (Ok (), w') ∧
    trace w'
    = trace w ++
      [EvPrint "Results for KNeighbors pipeline:";
       EvPrintValue "Mean CV accuracy:" cv1; EvTable t1;
       EvPrint "Results for Logistic Regression pipeline:";
       EvPrintValue "Mean CV accuracy:" cv2; EvTable t2;
       EvPrint "Results for SVM pipeline:";
       EvPrintValue "Mean CV accuracy:" cv3; EvTable t3;
       EvPrint "Results for XGBoost pipeline:";
       EvPrintValue "Mean CV accuracy:" cv4; EvTable t4] ∧
    Forall (λ t : list (string * npfloat), fst <$> t = metric_names)
      [t1; t2; t3; t4].
Proof.
  intros Hlib. unfold library_single_run in Hlib.
  destruct (shuffle_split _ _ _) as [[idx|e] rs0] eqn:Hsplit; [|done].
  unfold library_round_on in Hlib.
  apply lib_bind_Ok_inv in Hlib as (p1 & r1 & H1 & Hlib).
  apply lib_bind_Ok_inv in Hlib as (p2 & r2 & H2 & Hlib).
  apply lib_bind_Ok_inv in Hlib as (p3 & r3 & H3 & Hlib).
  apply lib_bind_Ok_inv in Hlib as (p4 & r4 & H4 & Hlib).
  unfold evaluate_models_once.
  erewrite bind_run by (by eapply train_test_split_seeded).
  unfold KN_pipeline, LR_pipeline, SVM_pipeline, XGBoost_pipeline.
  destruct (run_pipeline_run cross_val_score fit_predict accuracy_score
              mean_squared_error _ _ _ _ _ H1) as [cv1 Hr1].
  destruct (run_pipeline_run cross_val_score fit_predict accuracy_score
              mean_squared_error _ _ _ _ _ H2) as [cv2 Hr2].
  destruct (run_pipeline_run cross_val_score fit_predict accuracy_score
              mean_squared_error _ _ _ _ _ H3) as [cv3 Hr3].
  destruct (run_pipeline_run cross_val_score fit_predict accuracy_score
              mean_squared_error _ _ _ _ _ H4) as [cv4 Hr4].
  destruct w as [h d rs t]. cbn [np_random] in *.
  erewrite bind_run by apply Hr1.
  erewrite bind_run by apply Hr2.
  erewrite bind_run by apply Hr3.
  erewrite bind_run by apply Hr4.
  eexists _, cv1, cv2, cv3, cv4, _, _, _, _.
  split; [reflexivity|]. cbn [trace]. split.
  - by rewrite <- !app_assoc.
  - by repeat constructor.
Qed.


(** ** The harness writes to no frame and no file *)

Lemma store_kept_ret {A} (a : A) : store_kept (mret a).
Proof. by intros w. Qed.

Lemma store_kept_raise {A} (e : exn) : store_kept (@raise A e).
Proof. by intros w. Qed.

Lemma store_kept_emit (e : event) : store_kept (emit e).
Proof. by intros w. Qed.

Lemma store_kept_lib_call {A} (f : lib A) : store_kept (lib_call f).
Proof. intros w. unfold lib_call. by destruct (f _). Qed.

Lemma store_kept_bind {A B} (m : M A) (k : A → M B) :
  store_kept m → (∀ a, store_kept (k a)) → store_kept (m ≫= k).
Proof.
  intros Hm Hk w. unfold mbind, M_bind, bind. specialize (Hm w).
  destruct (m w) as [[a|e] w1]; simpl in Hm; [|done].
  destruct Hm as [<- <-]. apply Hk.
Qed.

Lemma store_kept_for_each {A} (body : A → M unit) (l : list A) :
  (∀ x, store_kept (body x)) → store_kept (for_each l body).
Proof.
  intros Hbody. induction l as [|x l IH]; [apply store_kept_ret|].
  by apply store_kept_bind.
Qed.

Lemma store_kept_for_range {S} (body : S → M S) (n : nat) (s : S) :
  (∀ s, store_kept (body s)) → store_kept (for_range n body s).
Proof.
  intros Hbody. revert s. induction n as [|n IH]; intros s.
  - apply store_kept_ret.
  - by apply store_kept_bind.
Qed.

Lemma store_kept_dict_getitem {V} (d : list (string * V)) (k : string) :
  store_kept (dict_getitem d k).
Proof. intros w. unfold dict_getitem. by destruct (dict_lookup d k). Qed.

Lemma store_kept_dict_append (d : list (string * list Qc)) (k : string)
    (x : Qc) :
  store_kept (dict_append d k x).
Proof.
  apply store_kept_bind; [apply store_kept_dict_getitem|].
  intros l. apply store_kept_ret.
Qed.

Lemma store_kept_first_item (l : list Qc) : store_kept (first_item l).
Proof. intros w. by destruct l. Qed.

Lemma store_kept_last_item (l : list Qc) : store_kept (last_item l).
Proof. intros w. unfold last_item. by destruct (last l). Qed.

Lemma store_kept_plot_performance (accuracies : list (string * list Qc))
    (mean_accuracies : list (string * npfloat)) :
  store_kept (plot_performance accuracies mean_accuracies).
Proof.
  unfold plot_performance.
  repeat (apply store_kept_bind; [|intros ?]);
    try apply store_kept_emit.
  apply store_kept_for_each. intros [model acc_list]. unfold plot_model.
  repeat (apply store_kept_bind; [|intros ?]);
    auto using store_kept_emit, store_kept_first_item, store_kept_last_item,
      store_kept_dict_getitem.
Qed.

Section HarnessStore.

Variable RandomState_seed : Z → RandomState.
Variable shuffle_split : nat → Qc → lib (list nat * list nat).
Variable cross_val_score :
  Pipeline → DataFrame → list Qc → nat → lib (list Qc).
Variable fit_predict :
  Pipeline → DataFrame → list Qc → DataFrame → lib (list Qc).
Variable accuracy_score : list Qc → list Qc → Qc.
Variable mean_squared_error : list Qc → list Qc → Qc.

Lemma store_kept_train_test_split (X : DataFrame) (y : list Qc)
    (test_size : Qc) (random_state : option Z) :
  store_kept
    (train_test_split RandomState_seed shuffle_split X y test_size random_state).
Proof.
  intros w. unfold train_test_split.
  by destruct (shuffle_split _ _ _) as [[[train test]|e] rs], random_state.
Qed.

Lemma store_kept_iteration (X : DataFrame) (y : list Qc)
    (accuracies : list (string * list Qc)) :
  store_kept
    (iteration RandomState_seed shuffle_split cross_val_score fit_predict
       accuracy_score mean_squared_error X y accuracies).
Proof.
  unfold iteration, KN_pipeline, LR_pipeline, SVM_pipeline, XGBoost_pipeline.
  repeat (apply store_kept_bind; [|intros ?]);
    auto using store_kept_train_test_split, store_kept_lib_call,
      store_kept_emit, store_kept_dict_getitem;
    try apply store_kept_ret; by intros ?.
Qed.

Lemma store_kept_iteratively (X : DataFrame) (y : list Qc) (num : nat) :
  store_kept
    (evaluate_models_iteratively RandomState_seed shuffle_split
       cross_val_score fit_predict accuracy_score mean_squared_error X y num).
Proof.
  unfold evaluate_models_iteratively, collect_accuracies.
  apply store_kept_bind.
  - apply store_kept_bind; [|intros ?; apply store_kept_ret].
    apply store_kept_for_range. intros s. apply store_kept_iteration.
  - intros [accuracies mean_accuracies]. apply store_kept_plot_performance.
Qed.

Lemma store_kept_once (X : DataFrame) (y : list Qc) :
  store_kept
    (evaluate_models_once RandomState_seed shuffle_split cross_val_score
       fit_predict accuracy_score mean_squared_error X y).
Proof.
  unfold evaluate_models_once, KN_pipeline, LR_pipeline, SVM_pipeline,
    XGBoost_pipeline.
  repeat (apply store_kept_bind; [|intros ?]);
    auto using store_kept_train_test_split, store_kept_lib_call,
      store_kept_emit;
    try apply store_kept_ret; by intros ?.
Qed.

End HarnessStore.

(** X10.  Neither entry point of the harness writes to a dataframe or to a
    file: after the iterative run, for any number of iterations and also
    when the reporter or a library call raises, and after the single run,
    the store and the files are what they were before. *)
Theorem harness_keeps_store
    (RandomState_seed : Z → RandomState)
    (shuffle_split : nat → Qc → lib (list nat * list nat))
    (cross_val_score : Pipeline → DataFrame → list Qc → nat → lib (list Qc))
    (fit_predict : Pipeline → DataFrame → list Qc → DataFrame → lib (list Qc))
    (accuracy_score mean_squared_error : list Qc → list Qc → Qc)
    (X : DataFrame) (y : list Qc) (num : nat) (w : world) :
  let w1 := (evaluate_models_iteratively RandomState_seed shuffle_split
               cross_val_score fit_predict accuracy_score mean_squared_error
               X y num w).2 in
  let w2 := (evaluate_models_once RandomState_seed shuffle_split
               cross_val_score fit_predict accuracy_score mean_squared_error
               X y w).2 in
  heap w1 = heap w ∧ disk w1 = disk w ∧ heap w2 = heap w ∧ disk w2 = disk w.
Proof.
  intros w1 w2.
  destruct (store_kept_iteratively RandomState_seed shuffle_split
              cross_val_score fit_predict accuracy_score mean_squared_error
              X y num w) as [? ?].
  destruct (store_kept_once RandomState_seed shuffle_split
              cross_val_score fit_predict accuracy_score mean_squared_error
              X y w) as [? ?].
  done.
Qed.

(** ** The range chart *)

Lemma sorted_head_least (x : Qc) (l : list Qc) :
  StronglySorted Qcle (x :: l) → ∀ y, y ∈ x :: l → x ≤ y.
Proof.
  intros Hs y Hy. apply StronglySorted_inv in Hs as [_ Hall].
  apply elem_of_cons in Hy as [->|Hy]; [apply Qcle_refl|].
  rewrite Forall_forall in Hall. by apply Hall.
Qed.

Lemma sorted_last_greatest (l : list Qc) (hi : Qc) :
  StronglySorted Qcle l → last l = Some hi → ∀ y, y ∈ l → y ≤ hi.
Proof.
  intros Hs. induction Hs as [|x l Hs IH Hall]; intros Hlast y Hy.
  - by apply elem_of_nil in Hy.
  - destruct l as [|x' l'].
    + injection Hlast as <-. apply list_elem_of_singleton in Hy as ->.
      apply Qcle_refl.
    + rewrite last_cons_cons in Hlast.
      apply elem_of_cons in Hy as [->|Hy]; [|by apply IH].
      rewrite Forall_forall in Hall.
      apply Qcle_trans with x'; [apply Hall, list_elem_of_here|].
      apply IH; [done|apply list_elem_of_here].
Qed.

(** The ends of the sorted trace are its least and its greatest entry. *)
Lemma sorted_ends (l : list Qc) :
  l ≠ [] →
  ∃ lo hi rest,
    merge_sort Qcle l = lo :: rest ∧ last (lo :: rest) = Some hi ∧
    lo ∈ l ∧ hi ∈ l ∧ ∀ x, x ∈ l → lo ≤ x ∧ x ≤ hi.
Proof.
  intros Hne. pose proof (sorted_nonempty l Hne) as Hs.
  pose proof (StronglySorted_merge_sort Qcle l) as Hsorted.
  pose proof (merge_sort_Permutation Qcle l) as Hperm.
  destruct (merge_sort Qcle l) as [|lo rest]; [done|].
  destruct (last (lo :: rest)) as [hi|] eqn:Hlast; cycle 1.
  { by apply last_None in Hlast. }
  exists lo, hi, rest. split; [done|]. split; [done|].
  split; [rewrite <- Hperm; apply list_elem_of_here|].
  split.
  { rewrite <- Hperm. apply last_Some in Hlast as [l' ->].
    apply elem_of_app. right. apply list_elem_of_here. }
  intros x Hx. rewrite <- Hperm in Hx. split.
  - by apply (sorted_head_least lo rest).
  - by apply (sorted_last_greatest (lo :: rest)).
Qed.

(** X11.  For a model with at least one accuracy and a mean, the reporter
    draws four marks and nothing else: a line from the least to the
    greatest accuracy of the trace, a dot at the mean, and a tick at each
    end of the line. *)
Theorem plot_model_range (mean_accuracies : list (string * npfloat))
    (model : string) (acc_list : list Qc) (mean : npfloat) (w : world) :
  acc_list ≠ [] →
  dict_lookup mean_accuracies model = Some mean →
  ∃ lo hi,
    plot_model mean_accuracies (model, acc_list) w
    = (Ok (),
       World (heap w) (disk w) (np_random w)
         (trace w ++
          [EvPlot [fin lo; fin hi] [model; model] "b-";
           EvPlot [mean] [model] "bo";
           EvPlot [fin lo] [model] "b|";
           EvPlot [fin hi] [model] "b|"])) ∧
    lo ∈ acc_list ∧ hi ∈ acc_list ∧
    ∀ x, x ∈ acc_list → lo ≤ x ∧ x ≤ hi.
Proof.
  intros Hne Hmean.
  destruct (sorted_ends acc_list Hne)
    as (lo & hi & rest & Hsort & Hlast & Hlo & Hhi & Hall).
  exists lo, hi. split; [|done].
  unfold plot_model, dict_getitem, last_item. rewrite Hmean, Hsort, Hlast.
  unfold first_item, emit, mbind, M_bind, bind, mret, M_ret, ret. cbn.
  by rewrite <- !app_assoc.
Qed.

Lemma plot_model_range_witness :
  ∃ lo hi,
    plot_model [("SVM", fin (Qc_of_Z 2))]
      ("SVM", Qc_of_Z <$> [3; 1; 2]%Z) sample_world
    = (Ok (),
       World (heap sample_world) (disk sample_world) (np_random sample_world)
         (trace sample_world ++
          [EvPlot [fin lo; fin hi] ["SVM"; "SVM"] "b-";
           EvPlot [fin (Qc_of_Z 2)] ["SVM"] "bo";
           EvPlot [fin lo] ["SVM"] "b|";
           EvPlot [fin hi] ["SVM"] "b|"])) ∧
    lo ∈ Qc_of_Z <$> [3; 1; 2]%Z ∧ hi ∈ Qc_of_Z <$> [3; 1; 2]%Z ∧
    ∀ x, x ∈ Qc_of_Z <$> [3; 1; 2]%Z → lo ≤ x ∧ x ≤ hi.
Proof.
  apply (plot_model_range [("SVM", fin (Qc_of_Z 2))] "SVM"
           (Qc_of_Z <$> [3; 1; 2]%Z) (fin (Qc_of_Z 2)) sample_world).
  - discriminate.
  - reflexivity.
Defined.


(** * Further properties of [main] *)

Lemma project_columns_cons (d : DataFrame) (col : string) (cols : list string) :
  project_columns d (col :: cols)
  = match d !! col with
    | Some v => <[col := v]> (project_columns d cols)
    | None => project_columns d cols
    end.
Proof. done. Qed.

Lemma project_columns_lookup (d : DataFrame) (cols : list string) (c : string) :
  project_columns d cols !! c = if decide (c ∈ cols) then d !! c else None.
Proof.
  induction cols as [|col cols IH].
  - unfold project_columns. cbn [foldr]. rewrite lookup_empty.
    case_decide as Hin; [by apply elem_of_nil in Hin|done].
  - rewrite project_columns_cons. destruct (decide (c = col)) as [->|Hne].
    + rewrite (decide_True _ _ (list_elem_of_here col cols)).
      destruct (d !! col) as [v|] eqn:Hv; [by rewrite lookup_insert_eq|].
      rewrite IH. by case_decide.
    + assert (Hc : match d !! col with
                   | Some v => <[col := v]> (project_columns d cols)
                   | None => project_columns d cols
                   end !! c = project_columns d cols !! c).
      { destruct (d !! col); [by rewrite lookup_insert_ne|done]. }
      rewrite Hc, IH.
      destruct (decide (c ∈ cols)) as [Hin|Hin].
      * by rewrite decide_True by (by apply list_elem_of_further).
      * rewrite decide_False; [done|]. intros [?|?]%elem_of_cons; done.
Qed.

Lemma select_columns_run (d : DataFrame) (cols : list string) (w : world) :
  (∀ c, c ∈ cols → is_Some (d !! c)) →
  select_columns d cols w = (Ok (project_columns d cols), w).
Proof.
  intros Hcols. unfold select_columns.
  assert (Hnil : filter (λ c, d !! c = None) cols = []).
  { destruct (filter _ cols) as [|c rest] eqn:Hf; [done|].
    assert (Hc : c ∈ filter (λ c, d !! c = None) cols)
      by (rewrite Hf; apply list_elem_of_here).
    apply list_elem_of_filter in Hc as [Hnone Hin].
    destruct (Hcols c Hin) as [v Hv]. congruence. }
  by rewrite Hnil.
Qed.

(** X13.  The feature frame [X] that [main] hands to the harness has the
    thirteen feature columns, each equal to the column of the cleaned
    frame, and no other column: neither the label [target] nor the raw
    [num] is among the features.  Selecting changes nothing in the world. *)
Theorem select_columns_features (d : DataFrame) (w : world) :
  (∀ c, c ∈ feature_columns → is_Some (d !! c)) →
  ∃ X,
    select_columns d feature_columns w = (Ok X, w) ∧
    dom X = list_to_set feature_columns ∧
    (∀ c, c ∈ feature_columns → X !! c = d !! c) ∧
    X !! "target" = None ∧ X !! "num" = None.
Proof.
  intros Hcols. exists (project_columns d feature_columns).
  split; [by apply select_columns_run|]. split; [|split; [|split]].
  - apply set_eq. intros c.
    rewrite elem_of_dom, project_columns_lookup, elem_of_list_to_set.
    case_decide as Hin; [|by rewrite is_Some_alt]. split; [done|].
    intros _. by apply Hcols.
  - intros c Hin. by rewrite project_columns_lookup, decide_True.
  - rewrite project_columns_lookup.
    apply decide_False, (bool_decide_unpack _). by vm_compute.
  - rewrite project_columns_lookup.
    apply decide_False, (bool_decide_unpack _). by vm_compute.
Qed.

Lemma select_columns_features_witness :
  ∃ X,
    select_columns (cleaned_frame sample_csv) feature_columns sample_world
    = (Ok X, sample_world) ∧
    dom X = list_to_set feature_columns ∧
    (∀ c, c ∈ feature_columns → X !! c = cleaned_frame sample_csv !! c) ∧
    X !! "target" = None ∧ X !! "num" = None.
Proof.
  apply (select_columns_features (cleaned_frame sample_csv) sample_world).
  apply columns_present. vm_compute. reflexivity.
Defined.

(** X14.  Selecting, from a list without repeated labels, columns of which
    at least one is missing raises one [KeyError] that names the missing
    labels: all the labels of the list that the frame lacks and no other,
    in the order of the list.  Nothing is changed. *)
Theorem select_columns_missing (d : DataFrame) (cols : list string)
    (w : world) :
  NoDup cols →
  ¬ (∀ c, c ∈ cols → is_Some (d !! c)) →
  ∃ missing,
    select_columns d cols w = (Raise (KeyErrorNotInIndex missing), w) ∧
    missing ≠ [] ∧
    NoDup missing ∧
    missing `sublist_of` cols ∧
    ∀ c, c ∈ missing ↔ c ∈ cols ∧ d !! c = None.
Proof.
  intros Hnodup Hmiss. exists (filter (λ c, d !! c = None) cols).
  assert (Hne : filter (λ c, d !! c = None) cols ≠ []).
  { intros Hnil. apply Hmiss. intros c Hin.
    destruct (d !! c) as [v|] eqn:Hv; [by eexists|].
    pose proof (filter_nil_not_elem_of (λ c, d !! c = None) cols c Hnil Hv).
    done. }
  split; [|split; [done|split; [|split]]].
  - unfold select_columns.
    by destruct (filter (λ c, d !! c = None) cols).
  - by apply NoDup_filter.
  - apply sublist_filter.
  - intros c. rewrite list_elem_of_filter. tauto.
Qed.

Lemma select_columns_missing_witness :
  ∃ missing,
    select_columns skewed_frame feature_columns sample_world
    = (Raise (KeyErrorNotInIndex missing), sample_world) ∧
    missing ≠ [] ∧
    NoDup missing ∧
    missing `sublist_of` feature_columns ∧
    ∀ c, c ∈ missing ↔ c ∈ feature_columns ∧ skewed_frame !! c = None.
Proof.
  apply (select_columns_missing skewed_frame feature_columns sample_world).
  - apply (bool_decide_unpack _). vm_compute. reflexivity.
  - intros H. destruct (H "sex") as [v Hv].
    + apply (bool_decide_unpack _). vm_compute. reflexivity.
    + revert Hv. apply (bool_decide_unpack _). vm_compute. reflexivity.
Defined.
Lemma imap_names {B} (F : nat → string → B) (names : list string) :
  fst <$> imap (λ j name, (name, F j name)) names = names.
Proof.
  revert F. induction names as [|name names IH]; intros F; [done|].
  rewrite imap_cons. cbn [fmap list_fmap fst]. f_equal. apply (IH (F ∘ S)).
Qed.

(** The columns of the cleaned frame are the names of the header. *)
Lemma dropna_dom (f : csv_file) : dom (dropna f) = list_to_set (header f).
Proof.
  unfold dropna. rewrite dom_list_to_map_L. f_equal.
  apply (imap_names (λ j _, omap (λ r : list Qc, r !! j) _)).
Qed.

Lemma dropna_is_Some (f : csv_file) (name : string) :
  name ∈ header f → is_Some (dropna f !! name).
Proof.
  intros Hin. apply elem_of_dom. rewrite dropna_dom.
  by apply elem_of_list_to_set.
Qed.

Lemma dropna_None (f : csv_file) (name : string) :
  name ∉ header f → dropna f !! name = None.
Proof.
  intros Hin. apply not_elem_of_dom. rewrite dropna_dom.
  by rewrite elem_of_list_to_set.
Qed.

Lemma alloc_run (d : DataFrame) (w : world) :
  alloc d w
  = (Ok (fresh (dom (heap w))),
     with_heap w (<[fresh (dom (heap w)) := d]> (heap w))).
Proof. done. Qed.


(** ** The reporter draws nothing from the generator *)

Lemma generator_kept_ret {A} (a : A) : generator_kept (mret a).
Proof. by intros w. Qed.

Lemma generator_kept_emit (e : event) : generator_kept (emit e).
Proof. by intros w. Qed.

Lemma generator_kept_bind {A B} (m : M A) (k : A → M B) :
  generator_kept m → (∀ a, generator_kept (k a)) → generator_kept (m ≫= k).
Proof.
  intros Hm Hk w. unfold mbind, M_bind, bind. specialize (Hm w).
  destruct (m w) as [[a|e] w1]; simpl in Hm; [|done].
  rewrite <- Hm. apply Hk.
Qed.

Lemma generator_kept_for_each {A} (body : A → M unit) (l : list A) :
  (∀ x, generator_kept (body x)) → generator_kept (for_each l body).
Proof.
  intros Hbody. induction l as [|x l IH]; [apply generator_kept_ret|].
  by apply generator_kept_bind.
Qed.

Lemma generator_kept_dict_getitem {V} (d : list (string * V)) (k : string) :
  generator_kept (dict_getitem d k).
Proof. intros w. unfold dict_getitem. by destruct (dict_lookup d k). Qed.

Lemma generator_kept_first_item (l : list Qc) : generator_kept (first_item l).
Proof. intros w. by destruct l. Qed.

Lemma generator_kept_last_item (l : list Qc) : generator_kept (last_item l).
Proof. intros w. unfold last_item. by destruct (last l). Qed.

Lemma generator_kept_plot_performance (accuracies : list (string * list Qc))
    (mean_accuracies : list (string * npfloat)) :
  generator_kept (plot_performance accuracies mean_accuracies).
Proof.
  unfold plot_performance.
  repeat (apply generator_kept_bind; [|intros ?]);
    try apply generator_kept_emit.
  apply generator_kept_for_each. intros [model acc_list]. unfold plot_model.
  repeat (apply generator_kept_bind; [|intros ?]);
    auto using generator_kept_emit, generator_kept_first_item,
      generator_kept_last_item, generator_kept_dict_getitem.
Qed.

Section MainProofs.

Variable RandomState_seed : Z → RandomState.
Variable shuffle_split : nat → Qc → lib (list nat * list nat).
Variable cross_val_score :
  Pipeline → DataFrame → list Qc → nat → lib (list Qc).
Variable fit_predict :
  Pipeline → DataFrame → list Qc → DataFrame → lib (list Qc).
Variable accuracy_score : list Qc → list Qc → Qc.
Variable mean_squared_error : list Qc → list Qc → Qc.

(** The iterative run of at least one round, when the library calls of its
    rounds return. *)
Lemma evaluate_models_iteratively_run (X : DataFrame) (y : list Qc) (n : nat)
    (w : world) (rounds : list round) (rs' : RandomState) :
  library_rounds shuffle_split cross_val_score fit_predict X y (S n)
    (np_random w) = (Ok rounds, rs') →
  ∃ w',
    evaluate_models_iteratively RandomState_seed shuffle_split
      cross_val_score fit_predict accuracy_score mean_squared_error
      X y (S n) w = (Ok (), w') ∧
    np_random w' = rs'.
Proof.
  intros Hlib.
  destruct (for_range_run RandomState_seed shuffle_split cross_val_score
              fit_predict accuracy_score mean_squared_error X y (S n)
              [] [] [] [] w rounds rs' Hlib) as (_ & events & Hrun & _).
  match type of Hrun with _ = (Ok ?a, ?v) =>
    set (accs := a) in Hrun; set (w1 := v) in Hrun end.
  assert (Htr : traces_of (S n) accs).
  { eapply (for_range_Ok_traces _ _ _ _ _ _ _ _ (S n) 0); [|exact Hrun].
    by eexists [], [], [], []. }
  destruct (plot_performance_ok accs n w1 Htr) as (w' & Hplot & _).
  exists w'. split.
  - unfold evaluate_models_iteratively.
    erewrite bind_run; cycle 1.
    { unfold collect_accuracies. erewrite bind_run by exact Hrun. reflexivity. }
    exact Hplot.
  - pose proof (generator_kept_plot_performance accs
                  ((λ item, (item.1, np_mean item.2)) <$> accs) w1) as Hg.
    by rewrite Hplot in Hg.
Qed.

(** [main] from the line after the file is read, on a file with the
    fourteen columns, when the library calls return. *)
Lemma analyse_ok (raw : csv_file) (w : world) (rs' : RandomState) :
  (∀ c, c ∈ "num" :: feature_columns → c ∈ header raw) →
  library_main RandomState_seed shuffle_split cross_val_score fit_predict
    (features raw) (labels raw) (np_random w) = (Ok (), rs') →
  ∃ w', analyse RandomState_seed shuffle_split cross_val_score fit_predict
          accuracy_score mean_squared_error raw w = (Ok (), w') ∧
        disk w' = disk w ∧
        (∀ l, l ∈ dom (heap w) → heap w' !! l = heap w !! l).
Proof.
  intros Hcols Hlib. unfold analyse.
  set (l := fresh (dom (heap w))).
  assert (Hfresh : l ∉ dom (heap w)) by apply is_fresh.
  erewrite bind_run by apply alloc_run. fold l.
  destruct (dropna_is_Some raw "num") as [num Hnum].
  { apply Hcols, list_elem_of_here. }
  unfold features, cleaned_frame, labels in Hlib. rewrite Hnum in Hlib.
  cbn [default from_option id] in Hlib.
  erewrite bind_run; cycle 1.
  { eapply process_target_run; [apply lookup_insert_eq|exact Hnum]. }
  rewrite with_heap_with_heap, heap_with_heap, insert_insert_eq.
  set (d1 := delete "num" (<["target" := binarize <$> num]> (dropna raw)))
    in *.
  assert (Hd1 : ∀ c, c ∈ feature_columns → is_Some (d1 !! c)).
  { intros c Hc. unfold d1. rewrite lookup_delete_ne, lookup_insert_ne.
    - apply dropna_is_Some, Hcols. by apply list_elem_of_further.
    - intros <-. revert Hc. apply (bool_decide_unpack _). by vm_compute.
    - intros <-. revert Hc. apply (bool_decide_unpack _). by vm_compute. }
  erewrite bind_run; cycle 1.
  { eapply handle_outliers_run; [apply lookup_insert_eq|].
    intros c Hc. apply Hd1. revert Hc. revert c. apply Forall_forall.
    apply (bool_decide_unpack _). by vm_compute. }
  rewrite with_heap_with_heap, heap_with_heap, insert_insert_eq.
  set (w1 := with_heap w (<[l := clip_frame d1]> (heap w))).
  assert (Hload : load l w1 = (Ok (clip_frame d1), w1)).
  { unfold load. cbn [heap w1 with_heap]. by rewrite lookup_insert_eq. }
  erewrite bind_run by exact Hload.
  erewrite bind_run; cycle 1.
  { apply select_columns_run. intros c Hc. rewrite clip_frame_lookup.
    case_decide; [apply fmap_is_Some|]; by apply Hd1. }
  erewrite bind_run; cycle 1.
  { eapply getitem_run; [apply lookup_insert_eq|].
    rewrite clip_frame_other.
    - unfold d1. rewrite lookup_delete_ne by done. apply lookup_insert_eq.
    - apply (bool_decide_unpack _). by vm_compute. }
  set (X := project_columns (clip_frame d1) feature_columns) in *.
  unfold library_main in Hlib.
  apply lib_bind_Ok_inv in Hlib as (rounds & rs1 & Hrounds & Hlib).
  apply lib_bind_Ok_inv in Hlib as (single & rs2 & Hsingle & _).
  destruct (evaluate_models_iteratively_run X (binarize <$> num) 99 w1
              rounds rs1 Hrounds) as (w2 & H2 & Hrs).
  pose proof (store_kept_iteratively RandomState_seed shuffle_split
                cross_val_score fit_predict accuracy_score mean_squared_error
                X (binarize <$> num) 100 w1) as [Hh2 Hd2].
  rewrite H2 in Hh2, Hd2. cbn [snd] in Hh2, Hd2.
  erewrite bind_run by exact H2.
  rewrite <- Hrs in Hsingle.
  destruct (evaluate_models_once_run RandomState_seed shuffle_split
              cross_val_score fit_predict accuracy_score mean_squared_error
              X (binarize <$> num) w2 single rs2 Hsingle)
    as (w3 & _ & _ & _ & _ & _ & _ & _ & _ & H3 & _).
  pose proof (store_kept_once RandomState_seed shuffle_split
                cross_val_score fit_predict accuracy_score mean_squared_error
                X (binarize <$> num) w2) as [Hh3 Hd3].
  rewrite H3 in Hh3, Hd3. cbn [snd] in Hh3, Hd3.
  exists w3. split; [exact H3|]. split; [by rewrite Hd3, Hd2|].
  intros l' Hl'. rewrite Hh3, Hh2. cbn [heap w1 with_heap].
  apply lookup_insert_ne. by intros <-.
Qed.

End MainProofs.

(** X15.  When the input file is there, parses, and has the severity
    column and the thirteen feature columns, and the library calls of the
    run (a hundred rounds on the feature frame and the labels made from the
    file, then the single round) return, [main] runs to its end without an
    exception.  The acquisition collaborator plays no part in the run, the
    files are left as they were, and the objects already in the store are
    untouched. *)
Theorem main_on_complete_file
    (RandomState_seed : Z → RandomState)
    (shuffle_split : nat → Qc → lib (list nat * list nat))
    (cross_val_score : Pipeline → DataFrame → list Qc → nat → lib (list Qc))
    (fit_predict : Pipeline → DataFrame → list Qc → DataFrame → lib (list Qc))
    (accuracy_score mean_squared_error : list Qc → list Qc → Qc)
    (raw : csv_file) (w : world) (rs' : RandomState) :
  disk w !! csv_path = Some raw →
  csv_parses raw = true →
  (∀ c, c ∈ "num" :: feature_columns → c ∈ header raw) →
  library_main RandomState_seed shuffle_split cross_val_score fit_predict
    (features raw) (labels raw) (np_random w) = (Ok (), rs') →
  ∃ w',
    (∀ fetch_data,
       main RandomState_seed shuffle_split cross_val_score fit_predict
         accuracy_score mean_squared_error fetch_data w = (Ok (), w')) ∧
    disk w' = disk w ∧
    ∀ l, l ∈ dom (heap w) → heap w' !! l = heap w !! l.
Proof.
  intros Hfile Hparse Hcols Hlib.
  destruct (analyse_ok RandomState_seed shuffle_split cross_val_score
              fit_predict accuracy_score mean_squared_error raw w rs'
              Hcols Hlib)
    as (w' & Hrun & Hdisk & Hheap).
  exists w'. split; [|done]. intros fetch_data. unfold main.
  by erewrite bind_run by (by apply load_input_present).
Qed.

Lemma main_on_complete_file_witness :
  library_main const_seed const_shuffle_split const_cross_val_score
    const_fit_predict (features sample_csv) (labels sample_csv)
    (np_random (world_with_file sample_csv)) = (Ok (), 100%Z) ∧
  ∃ w',
    (∀ fetch_data,
       main const_seed const_shuffle_split const_cross_val_score
         const_fit_predict const_score const_score fetch_data
         (world_with_file sample_csv) = (Ok (), w')) ∧
    disk w' = disk (world_with_file sample_csv) ∧
    ∀ l, l ∈ dom (heap (world_with_file sample_csv)) →
         heap w' !! l = heap (world_with_file sample_csv) !! l.
Proof.
  split; [vm_compute; reflexivity|].
  apply (main_on_complete_file const_seed const_shuffle_split
           const_cross_val_score const_fit_predict const_score const_score
           sample_csv (world_with_file sample_csv) 100%Z).
  - reflexivity.
  - reflexivity.
  - apply Forall_forall. apply (bool_decide_unpack _). vm_compute. reflexivity.
  - vm_compute. reflexivity.
Defined.

(** X16.  When the input file is there and parses but has no [num] column,
    [main] ends with [KeyError] for [num] raised by the target encoder:
    nothing is printed, no model is run and the collaborator is not called;
    the cleaned frame is the only thing the run leaves behind. *)
Theorem main_without_num
    (RandomState_seed : Z → RandomState)
    (shuffle_split : nat → Qc → lib (list nat * list nat))
    (cross_val_score : Pipeline → DataFrame → list Qc → nat → lib (list Qc))
    (fit_predict : Pipeline → DataFrame → list Qc → DataFrame → lib (list Qc))
    (accuracy_score mean_squared_error : list Qc → list Qc → Qc)
    (fetch_data : gmap string csv_file → gmap string csv_file)
    (raw : csv_file) (w : world) :
  disk w !! csv_path = Some raw →
  csv_parses raw = true →
  "num" ∉ header raw →
  main RandomState_seed shuffle_split cross_val_score fit_predict
    accuracy_score mean_squared_error fetch_data w
  = (Raise (KeyError "num"),
     World (<[fresh (dom (heap w)) := dropna raw]> (heap w)) (disk w)
       (np_random w) (trace w)).
Proof.
  intros Hfile Hparse Hnum. unfold main.
  erewrite bind_run by (by apply load_input_present). unfold analyse.
  erewrite bind_run by apply alloc_run.
  erewrite bind_raise; [reflexivity|].
  eapply process_target_missing_num_run; [apply lookup_insert_eq|].
  by apply dropna_None.
Qed.

Lemma main_without_num_witness :
  main const_seed const_shuffle_split const_cross_val_score const_fit_predict
    const_score const_score fetch_nothing (world_with_file unlabelled_csv)
  = (Raise (KeyError "num"),
     World (<[fresh (dom (heap (world_with_file unlabelled_csv)))
              := dropna unlabelled_csv]>
              (heap (world_with_file unlabelled_csv)))
       (disk (world_with_file unlabelled_csv))
       (np_random (world_with_file unlabelled_csv))
       (trace (world_with_file unlabelled_csv))).
Proof.
  apply (main_without_num const_seed const_shuffle_split
           const_cross_val_score const_fit_predict const_score const_score
           fetch_nothing unlabelled_csv (world_with_file unlabelled_csv)).
  - reflexivity.
  - reflexivity.
  - apply (bool_decide_unpack _). vm_compute. reflexivity.
Defined.

(** * Further properties of the printed output *)

Lemma no_tables_silent {A} (m : M A) :
  (∀ w, trace (m w).2 = trace w) → no_tables m.
Proof. intros H w. exists []. by rewrite H, app_nil_r. Qed.

Lemma no_tables_emit (e : event) : is_table e = false → no_tables (emit e).
Proof.
  intros He w. exists [e]. split; [done|].
  unfold table_count. cbn. by rewrite He.
Qed.

Lemma no_tables_bind {A B} (m : M A) (k : A → M B) :
  no_tables m → (∀ a, no_tables (k a)) → no_tables (m ≫= k).
Proof.
  intros Hm Hk w. unfold mbind, M_bind, bind.
  destruct (Hm w) as (ev1 & H1 & Hc1).
  destruct (m w) as [[a|e] w1]; cbn [snd] in *.
  - destruct (Hk a w1) as (ev2 & H2 & Hc2).
    exists (ev1 ++ ev2). split.
    + by rewrite H2, H1, app_assoc.
    + rewrite table_count_app. lia.
  - by exists ev1.
Qed.

Lemma no_tables_for_each {A} (body : A → M unit) (l : list A) :
  (∀ x, no_tables (body x)) → no_tables (for_each l body).
Proof.
  intros Hbody. induction l as [|x l IH].
  - by apply no_tables_silent.
  - by apply no_tables_bind.
Qed.

Lemma no_tables_plot_performance (accuracies : list (string * list Qc))
    (mean_accuracies : list (string * npfloat)) :
  no_tables (plot_performance accuracies mean_accuracies).
Proof.
  unfold plot_performance.
  repeat (apply no_tables_bind; [|intros ?]);
    try (by apply no_tables_emit).
  apply no_tables_for_each. intros [model acc_list]. unfold plot_model.
  repeat (apply no_tables_bind; [|intros ?]);
    try (by apply no_tables_emit); apply no_tables_silent; intros w.
  - by destruct (merge_sort Qcle acc_list).
  - unfold last_item. by destruct (last _).
  - unfold dict_getitem. by destruct (dict_lookup _ _).
  - by destruct (merge_sort Qcle acc_list).
  - unfold last_item. by destruct (last _).
Qed.


(** X18.  When the library calls of its rounds return, the iterative run
    prints four metric tables per iteration and no other table: after
    [num] iterations, and whether or not the reporter then raises, the
    output has grown by events of which exactly [4 * num] are tables. *)
Theorem evaluate_models_iteratively_tables
    (RandomState_seed : Z → RandomState)
    (shuffle_split : nat → Qc → lib (list nat * list nat))
    (cross_val_score : Pipeline → DataFrame → list Qc → nat → lib (list Qc))
    (fit_predict : Pipeline → DataFrame → list Qc → DataFrame → lib (list Qc))
    (accuracy_score mean_squared_error : list Qc → list Qc → Qc)
    (X : DataFrame) (y : list Qc) (num : nat) (w : world)
    (rounds : list round) (rs' : RandomState) :
  library_rounds shuffle_split cross_val_score fit_predict X y num
    (np_random w) = (Ok rounds, rs') →
  ∃ events,
    trace (evaluate_models_iteratively RandomState_seed shuffle_split
             cross_val_score fit_predict accuracy_score mean_squared_error
             X y num w).2
    = trace w ++ events ∧
    table_count events = (4 * num)%nat.
Proof.
  intros Hlib.
  destruct (for_range_run RandomState_seed shuffle_split cross_val_score
              fit_predict accuracy_score mean_squared_error X y num
              [] [] [] [] w rounds rs' Hlib) as (_ & e1 & Hrun & Hc).
  match type of Hrun with _ = (Ok ?a, ?v) =>
    set (accs := a) in Hrun; set (w1 := v) in Hrun end.
  destruct (no_tables_plot_performance accs
              ((λ item, (item.1, np_mean item.2)) <$> accs) w1)
    as (e2 & Htr2 & Hc2).
  exists (e1 ++ e2). split.
  - unfold evaluate_models_iteratively.
    erewrite bind_run; cycle 1.
    { unfold collect_accuracies. erewrite bind_run by exact Hrun. reflexivity. }
    transitivity (trace (plot_performance accs
                           ((λ item, (item.1, np_mean item.2)) <$> accs)
                           w1).2); [reflexivity|].
    rewrite Htr2. unfold w1. cbn [trace]. by rewrite app_assoc.
  - rewrite table_count_app. lia.
Qed.

Lemma evaluate_models_iteratively_tables_witness :
  ∃ rounds rs',
    library_rounds const_shuffle_split const_cross_val_score const_fit_predict
      sample_frame sample_labels 3 (np_random sample_world)
    = (Ok rounds, rs') ∧
    ∃ events,
      trace (evaluate_models_iteratively const_seed const_shuffle_split
               const_cross_val_score const_fit_predict const_score const_score
               sample_frame sample_labels 3 sample_world).2
      = trace sample_world ++ events ∧
      table_count events = (4 * 3)%nat.
Proof.
  eexists _, _. split; [reflexivity|].
  eapply (evaluate_models_iteratively_tables const_seed const_shuffle_split
            const_cross_val_score const_fit_predict const_score const_score
            sample_frame sample_labels 3 sample_world).
  reflexivity.
Defined.
